(** * api-mock-demo: the schema-driven record generator of [src/App.vue]

    A shallow embedding of the script block of [App.vue] and the
    properties of its five components: [parseSchema], [genValue],
    [buildRecord] / [onGenerate], [openApiToSchema] with [mapSchemaType],
    and the computed [mswText].

    Layout of the model.
    - [Js]: the JavaScript values the program touches (the trees that
      [JSON.parse] and [yaml.load] return, the records it builds) and the
      language-level operations it applies to them: truthiness, [typeof],
      own-property reads, [Object.keys] / [Object.entries] with the
      engine's key order, assignment [o[k] = v] on an object literal,
      [Math.min] / [Math.max], [Array.from({length})].
    - [Platform]: the library functions the program calls but does not
      define ([JSON.parse], [JSON.stringify], [yaml.load], the faker
      random source, string-to-number conversion).  They are an interface;
      every theorem holds for each implementation of it.
    - [App]: the functions of [App.vue], one definition per function.
    - [Reference]: one executable implementation of [Platform], used to
      run the program on concrete inputs.
    - [Props]: the vocabulary of the properties, which follow it.

    Strings are [String.string], the bytes of the text in UTF-8.  Every
    literal the program compares a string against is ASCII, where a
    character of the model is one code unit of the JavaScript string. *)

From Stdlib Require Import ZArith QArith Qround String Ascii List Bool Lia Lqa.
From Stdlib Require Import Permutation Sorted.
From Stdlib Require Import DecimalString.
Import ListNotations.

#[local] Set Warnings "-register-all".

Local Open Scope string_scope.
Local Open Scope Z_scope.

(** ** Exceptions and results *)

(** The exceptions that can reach the program: [new Error(msg)], thrown by
    the program itself, and the engine's and the libraries' own classes.
    Every one carries its [message]; the wording of the engine's messages
    is V8's, and only their class matters below. *)
Inductive Exn : Type :=
| Error (message : string)
| TypeError (message : string)
| RangeError (message : string)
| SyntaxError (message : string)
| YAMLException (message : string).

Definition message (e : Exn) : string :=
  match e with
  | Error m | TypeError m | RangeError m | SyntaxError m | YAMLException m => m
  end.

Inductive Result (A : Type) : Type :=
| Ok (a : A)
| Throw (e : Exn).

Arguments Ok {A} a.
Arguments Throw {A} e.

Definition rbind {A B : Type} (r : Result A) (k : A -> Result B) : Result B :=
  match r with
  | Ok a => k a
  | Throw e => Throw e
  end.

Declare Scope result_scope.
Delimit Scope result_scope with result.
Notation "x <- c ;; k" := (rbind c (fun x => k))
  (at level 61, c at next level, right associativity) : result_scope.

(** ** Text helpers *)

Module Text.

(** The line feed and the double quote, which a literal cannot hold. *)
Definition nl : string := String "010"%char EmptyString.
Definition dquote : string := String "034"%char EmptyString.

(** [s.startsWith(p)]. *)
Definition startsWith (s p : string) : bool := String.prefix p s.

(** [s.slice(n)] for [0 <= n]: the text after the first [n] units. *)
Fixpoint slice (s : string) (n : nat) : string :=
  match n, s with
  | O, _ => s
  | S n', String _ s' => slice s' n'
  | S _, EmptyString => EmptyString
  end.

Fixpoint repeat_char (c : ascii) (n : nat) : string :=
  match n with
  | O => EmptyString
  | S n' => String c (repeat_char c n')
  end.

(** [s.padStart(n, c)] with a one-unit filler. *)
Definition padStart (s : string) (n : nat) (c : ascii) : string :=
  repeat_char c (n - String.length s) ++ s.

Definition lower_char (c : ascii) : ascii :=
  let n := nat_of_ascii c in
  if andb (Nat.leb 65 n) (Nat.leb n 90) then ascii_of_nat (n + 32) else c.

(** [s.toLowerCase()], on the ASCII letters; the program applies it to
    the method names and to e-mail addresses. *)
Fixpoint toLowerCase (s : string) : string :=
  match s with
  | EmptyString => EmptyString
  | String c s' => String (lower_char c) (toLowerCase s')
  end.

(** The decimal text of an integer: [String(n)] and a template
    substitution of an integral number below 10^21 in magnitude. *)
Definition ofZ (z : Z) : string := NilZero.string_of_int (Z.to_int z).

Definition isDigit (c : ascii) : bool :=
  let n := nat_of_ascii c in andb (Nat.leb 48 n) (Nat.leb n 57).

(** [sub] occurs in [s]. *)
Fixpoint includes (s sub : string) : bool :=
  if String.prefix sub s then true
  else match s with
       | EmptyString => false
       | String _ s' => includes s' sub
       end.

End Text.

(** ** JavaScript values *)

Module Js.

(** A number: the two infinities, NaN, or a finite value.  Every finite
    binary64 value is a rational, and the program only compares numbers,
    tests them against zero and truncates them, all of which is exact on
    rationals; so a statement about every [Fin q] covers every finite
    number. *)
Inductive Num : Type :=
| NaN
| NegInf
| PosInf
| Fin (q : Q).

Definition ofInt (z : Z) : Num := Fin (inject_Z z).

(** The values of the trees the program reads ([any] in the source) and
    of the records it builds.  An object holds its own properties in
    creation order, with distinct keys. *)
Inductive Val : Type :=
| Undefined
| Null
| Boolean (b : bool)
| Number (n : Num)
| Str (s : string)
| Arr (items : list Val)
| Obj (props : list (string * Val)).

(** ToBoolean: what [!v], [v || w] and [v && w] test. *)
Definition truthy (v : Val) : bool :=
  match v with
  | Undefined | Null => false
  | Boolean b => b
  | Number NaN => false
  | Number (Fin q) => negb (Qeq_bool q 0)
  | Number _ => true
  | Str s => negb (String.eqb s "")
  | Arr _ | Obj _ => true
  end.

Definition typeof (v : Val) : string :=
  match v with
  | Undefined => "undefined"
  | Null => "object"
  | Boolean _ => "boolean"
  | Number _ => "number"
  | Str _ => "string"
  | Arr _ | Obj _ => "object"
  end.

(** [v === 'lit']: strict equality with a string literal. *)
Definition isStr (v : Val) (lit : string) : bool :=
  match v with
  | Str s => String.eqb s lit
  | _ => false
  end.

(** *** Property keys *)

(** An array index is the canonical decimal text of an integer in
    [0, 2^32 - 2]. *)
Definition arrayIndex (k : string) : option N :=
  match NilEmpty.uint_of_string k with
  | Some u =>
      let n := N.of_uint u in
      if andb (String.eqb (NilZero.string_of_uint (N.to_uint n)) k)
              (N.leb n 4294967294)
      then Some n else None
  | None => None
  end.

Definition indexKey (i : nat) : string :=
  NilZero.string_of_uint (Nat.to_uint i).

Section OwnKeys.
Context {A : Type}.

Fixpoint insertIndexed (n : N) (e : string * A) (l : list (N * (string * A)))
  : list (N * (string * A)) :=
  match l with
  | [] => [(n, e)]
  | (m, e') :: t =>
      if N.leb n m then (n, e) :: l else (m, e') :: insertIndexed n e t
  end.

(** The properties whose key is an array index, in ascending order of
    the index. *)
Fixpoint indexed (props : list (string * A)) : list (N * (string * A)) :=
  match props with
  | [] => []
  | (k, v) :: t =>
      match arrayIndex k with
      | Some n => insertIndexed n (k, v) (indexed t)
      | None => indexed t
      end
  end.

(** The other properties, in creation order. *)
Definition named (props : list (string * A)) : list (string * A) :=
  filter (fun e => match arrayIndex (fst e) with Some _ => false | None => true end)
         props.

(** OrdinaryOwnPropertyKeys: array indices ascending, then the string
    keys in creation order.  It is the order of [Object.keys],
    [Object.entries], [for ... of Object.entries] and of what
    [JSON.stringify] writes. *)
Definition ownProps (props : list (string * A)) : list (string * A) :=
  map snd (indexed props) ++ named props.

Fixpoint lookup (props : list (string * A)) (k : string) : option A :=
  match props with
  | [] => None
  | (k', v) :: t => if String.eqb k' k then Some v else lookup t k
  end.

(** CreateDataProperty / an ordinary [[Set]] on an own data property:
    an existing key keeps its place, a new key is created last. *)
Fixpoint put (props : list (string * A)) (k : string) (v : A)
  : list (string * A) :=
  match props with
  | [] => [(k, v)]
  | (k', v') :: t =>
      if String.eqb k' k then (k', v) :: t else (k', v') :: put t k v
  end.

End OwnKeys.

Fixpoint enumerate {A : Type} (i : nat) (l : list A) : list (string * A) :=
  match l with
  | [] => []
  | x :: t => (indexKey i, x) :: enumerate (S i) t
  end.

(** A continuation byte of UTF-8. *)
Definition isCont (c : ascii) : bool :=
  let n := nat_of_ascii c in andb (Nat.leb 128 n) (Nat.leb n 191).

(** The text of one code unit above the ASCII range, as three bytes; it
    is how a surrogate half stands alone. *)
Definition unitText (u : N) : string :=
  String (ascii_of_N (224 + u / 4096))
    (String (ascii_of_N (128 + (u / 64) mod 64))
       (String (ascii_of_N (128 + u mod 64)) EmptyString)).

(** The UTF-16 code units of a string, each as a string of its own,
    which is what [s[i]] and [Object.entries(s)] give: a character of
    one, two or three bytes is one unit, a character of four bytes is a
    pair of surrogates.  A byte that does not start a well-formed
    sequence counts as a unit. *)
Fixpoint units (s : string) : list Val :=
  match s with
  | EmptyString => []
  | String a r1 =>
      let n := nat_of_ascii a in
      let single := Str (String a EmptyString) :: units r1 in
      if orb (Nat.ltb n 192) (Nat.leb 248 n) then single
      else
        match r1 with
        | String b r2 =>
            if negb (isCont b) then single
            else if Nat.ltb n 224
            then Str (String a (String b EmptyString)) :: units r2
            else
              match r2 with
              | String c r3 =>
                  if negb (isCont c) then single
                  else if Nat.ltb n 240
                  then Str (String a (String b (String c EmptyString))) :: units r3
                  else
                    match r3 with
                    | String d r4 =>
                        if negb (isCont d) then single
                        else
                          let cp :=
                            ((N_of_ascii a - 240) * 262144
                             + (N_of_ascii b - 128) * 4096
                             + (N_of_ascii c - 128) * 64
                             + (N_of_ascii d - 128))%N in
                          Str (unitText (55296 + (cp - 65536) / 1024))
                            :: Str (unitText (56320 + (cp - 65536) mod 1024))
                            :: units r4
                    | EmptyString => single
                    end
              | EmptyString => single
              end
        | EmptyString => single
        end
  end.

(** [Object.entries(v)]: throws on [undefined] and [null]; a primitive
    number or boolean has no own enumerable property; a string and an
    array have their elements under the indices. *)
Definition Object_entries (v : Val) : Result (list (string * Val)) :=
  match v with
  | Undefined | Null =>
      Throw (TypeError "Cannot convert undefined or null to object")
  | Boolean _ | Number _ => Ok []
  | Str s => Ok (enumerate 0 (units s))
  | Arr items => Ok (enumerate 0 items)
  | Obj props => Ok (ownProps props)
  end.

Definition Object_keys (v : Val) : Result (list string) :=
  match Object_entries v with
  | Ok es => Ok (map fst es)
  | Throw e => Throw e
  end.

(** [keys[0]]: the first element, [undefined] on an empty array. *)
Definition first (keys : list string) : Val :=
  match keys with
  | [] => Undefined
  | k :: _ => Str k
  end.

(** ToPropertyKey for the two kinds of value [keys[0]] can be. *)
Definition propertyKey (v : Val) : string :=
  match v with
  | Str k => k
  | _ => "undefined"
  end.

Definition element (items : list Val) (k : string) : Val :=
  match arrayIndex k with
  | Some n => nth (N.to_nat n) items Undefined
  | None =>
      if String.eqb k "length"
      then Number (ofInt (Z.of_nat (List.length items)))
      else Undefined
  end.

(** [v[k]] and [v.k], for the keys the program reads: the fixed names
    [paths], [responses], [200], [content], [application/json], [schema],
    [type], [items], [properties], [format], which no built-in prototype
    defines, and the keys [Object.keys(v)] returned, which are own.  So
    the read is decided by the own properties.  It throws on
    [undefined] and [null]. *)
Definition get (v : Val) (k : string) : Result Val :=
  match v with
  | Undefined =>
      Throw (TypeError ("Cannot read properties of undefined (reading '" ++ k ++ "')"))
  | Null =>
      Throw (TypeError ("Cannot read properties of null (reading '" ++ k ++ "')"))
  | Boolean _ | Number _ => Ok Undefined
  | Str s => Ok (element (units s) k)
  | Arr items => Ok (element items k)
  | Obj props =>
      match lookup props k with
      | Some x => Ok x
      | None => Ok Undefined
      end
  end.

(** [v?.k] and [v?.[k]]: [undefined] instead of the exception. *)
Definition optGet (v : Val) (k : string) : Val :=
  match get v k with
  | Ok x => x
  | Throw _ => Undefined
  end.

(** [o[k] = v] on an object created by a literal [{}].  The key
    [__proto__] reaches the accessor of [Object.prototype]: with a string,
    a number or [null] on the right it creates no own property. *)
Definition assign (props : list (string * Val)) (k : string) (v : Val)
  : list (string * Val) :=
  if String.eqb k "__proto__" then props else put props k v.

(** *** Numbers *)

Definition Num_leb (a b : Num) : bool :=
  match a, b with
  | NaN, _ | _, NaN => false
  | NegInf, _ => true
  | _, PosInf => true
  | PosInf, _ => false
  | _, NegInf => false
  | Fin p, Fin q => Qle_bool p q
  end.

Definition Math_min (a b : Num) : Num :=
  match a, b with
  | NaN, _ | _, NaN => NaN
  | _, _ => if Num_leb a b then a else b
  end.

Definition Math_max (a b : Num) : Num :=
  match a, b with
  | NaN, _ | _, NaN => NaN
  | _, _ => if Num_leb a b then b else a
  end.

(** [x || d] on numbers. *)
Definition orElse (x d : Num) : Num :=
  if truthy (Number x) then x else d.

(** ToLength: truncate, then clamp to [0, 2^53 - 1]. *)
Definition ToLength (n : Num) : Z :=
  match n with
  | NaN | NegInf => 0
  | PosInf => 2 ^ 53 - 1
  | Fin q => Z.min (Z.max (Qfloor q) 0) (2 ^ 53 - 1)
  end.

End Js.

(** ** The platform interface *)

(** A [Date] value, seen through the four observations the program makes
    of it (in local time, except the ISO text). *)
Record Date : Type := {
  getFullYear : Z;
  getMonth : Z;
  getDate : Z;
  toISOString : string
}.

(** The collaborators of [App.vue].  [Rng] is the state of the process-wide
    random source that faker draws from; [JSON_stringify v] is
    [JSON.stringify(v, null, 2)]; [StringToNumber] is [Number(s)] on a
    string. *)
Class Platform : Type := {
  Rng : Type;
  JSON_parse : string -> Result Js.Val;
  JSON_stringify : Js.Val -> string;
  yaml_load : string -> Result Js.Val;
  StringToNumber : string -> Js.Num;
  faker_string_uuid : Rng -> string * Rng;
  faker_person_fullName : Rng -> string * Rng;
  faker_internet_email : Rng -> string * Rng;
  faker_number_int : Z -> Z -> Rng -> Z * Rng;
  faker_date_between : string -> string -> Rng -> Date * Rng
}.

(** What the program relies on from faker and [Date]: an integer within
    the bounds asked for, and a date whose local fields are those of a
    calendar day of a four-digit year. *)
Definition number_int_in_bounds `{Platform} : Prop :=
  forall (lo hi : Z) (g : Rng),
    lo <= hi -> lo <= fst (faker_number_int lo hi g) <= hi.

Definition calendar_date (dt : Date) : Prop :=
  1000 <= getFullYear dt <= 9999 /\
  0 <= getMonth dt <= 11 /\
  1 <= getDate dt <= 31.

Definition dates_are_calendar `{Platform} : Prop :=
  forall (from to : string) (g : Rng),
    calendar_date (fst (faker_date_between from to g)).

(** ** The program *)

Module App.
Import Js Text.

Inductive HttpMethod : Type := GET | POST | PUT | DELETE.

Definition methodText (m : HttpMethod) : string :=
  match m with
  | GET => "GET"
  | POST => "POST"
  | PUT => "PUT"
  | DELETE => "DELETE"
  end.

(** What [v-model.number] leaves in [count]: a number, or the raw text
    of the field when it does not read as one. *)
Inductive CountValue : Type :=
| CountNumber (n : Num)
| CountText (s : string).

(** The reactive state of the component. *)
Record State : Type := {
  endpoint : string;
  method : HttpMethod;
  count : CountValue;
  schemaText : string;
  result : option (list Val);
  error : string;
  working : bool
}.

(** The initial values of the [ref]s. *)
Definition initial : State := {|
  endpoint := "/users";
  method := GET;
  count := CountNumber (ofInt 5);
  schemaText :=
    "{" ++ nl ++
    "  " ++ dquote ++ "id" ++ dquote ++ ": " ++ dquote ++ "uuid" ++ dquote ++ "," ++ nl ++
    "  " ++ dquote ++ "name" ++ dquote ++ ": " ++ dquote ++ "string" ++ dquote ++ "," ++ nl ++
    "  " ++ dquote ++ "email" ++ dquote ++ ": " ++ dquote ++ "email" ++ dquote ++ "," ++ nl ++
    "  " ++ dquote ++ "age" ++ dquote ++ ": " ++ dquote ++ "number" ++ dquote ++ "," ++ nl ++
    "  " ++ dquote ++ "joined_at" ++ dquote ++ ": " ++ dquote ++ "date:YYYY-MM-DD" ++ dquote ++ nl ++
    "}";
  result := None;
  error := "";
  working := false
|}.

Definition msg_schema_object : string := "スキーマはオブジェクトで指定してください。".
Definition msg_paths : string := "OpenAPI: paths が見つかりません".
Definition msg_schema_missing : string := "application/json の schema が見つかりません".
Definition msg_unsupported : string := "未対応のOpenAPI schema（MVP簡易対応）".
Definition msg_placeholder : string := "// 生成後にここに出力されます".
Definition label_openapi : string := "OpenAPI変換失敗: ".
Definition msg_no_clipboard : string := "Clipboard APIが使えません".
Definition msg_copied : string := "コピーしました".

(** What the handlers do to the page besides writing the state: an
    [alert], a text written to the clipboard, a file offered for saving
    (the [Blob] of [download], with its name and MIME type). *)
Inductive Effect : Type :=
| Alert (msg : string)
| ClipboardWrite (content : string)
| Download (fileName content mime : string).

(** [download(name, text, mime = 'text/plain')] *)
Definition download (fileName content : string) (mime : option string) : list Effect :=
  [Download fileName content
            match mime with
            | Some m => m
            | None => "text/plain"
            end].

(** The class [[\w\-]]: an ASCII letter, a digit, the underscore or the
    hyphen. *)
Definition isWordOrHyphen (c : ascii) : bool :=
  let n := nat_of_ascii c in
  orb (orb (andb (Nat.leb 65 n) (Nat.leb n 90)) (andb (Nat.leb 97 n) (Nat.leb n 122)))
      (orb (andb (Nat.leb 48 n) (Nat.leb n 57)) (orb (Nat.eqb n 95) (Nat.eqb n 45))).

(** [s.replace(/[^\w\-]+/g, '_')]: every maximal run of characters
    outside the class becomes one underscore.  [inRun] says that the
    character before was outside the class.  A character beyond ASCII is a
    run of bytes outside the class, as it is a run of code units outside
    the class, so the result is the same on the bytes. *)
Fixpoint replaceRuns (inRun : bool) (s : string) : string :=
  match s with
  | EmptyString => EmptyString
  | String c r =>
      if isWordOrHyphen c then String c (replaceRuns false r)
      else if inRun then replaceRuns true r
      else String "_" (replaceRuns true r)
  end.

Definition replaceUnsafe (s : string) : string := replaceRuns false s.

Section WithPlatform.
Context `{P : Platform}.

(** Code that draws from the random source and may throw. *)
Definition M (A : Type) : Type := Rng -> Result A * Rng.

Definition ret {A : Type} (a : A) : M A := fun g => (Ok a, g).

Definition throw {A : Type} (e : Exn) : M A := fun g => (Throw e, g).

Definition lift {A : Type} (r : Result A) : M A := fun g => (r, g).

Definition draw {A : Type} (f : Rng -> A * Rng) : M A :=
  fun g => let (a, g') := f g in (Ok a, g').

Definition bind {A B : Type} (c : M A) (k : A -> M B) : M B :=
  fun g =>
    match c g with
    | (Ok a, g') => k a g'
    | (Throw e, g') => (Throw e, g')
    end.

(** [Array.from({ length: n }, f)]: [f] is called once per index, in
    order; an exception of [f] ends the construction. *)
Fixpoint times {A : Type} (n : nat) (f : M A) : M (list A) :=
  match n with
  | O => ret []
  | S n' => bind f (fun a => bind (times n' f) (fun l => ret (a :: l)))
  end.

Definition Array_from {A : Type} (len : Num) (f : M A) : M (list A) :=
  let n := ToLength len in
  if 2 ^ 32 - 1 <? n then throw (RangeError "Invalid array length")
  else times (Z.to_nat n) f.

(** [parseSchema] *)
Definition parseSchema (txt : string) : Result Val :=
  (obj <- JSON_parse txt ;;
   if orb (negb (truthy obj)) (negb (String.eqb (typeof obj) "object"))
   then Throw (Error msg_schema_object)
   else Ok obj)%result.

(** [genValue].  On a value that is not a string the call
    [typeSpec.startsWith(...)] throws before anything is drawn. *)
Definition genValue (typeSpec : Val) : M Val :=
  match typeSpec with
  | Str s =>
      if startsWith s "date:" then
        let fmt := slice s 5 in
        bind (draw (faker_date_between "2018-01-01" "2025-12-31")) (fun dt =>
          let yyyy := getFullYear dt in
          let mm := padStart (ofZ (getMonth dt + 1)) 2 "0" in
          let dd := padStart (ofZ (getDate dt)) 2 "0" in
          if String.eqb fmt "YYYY-MM-DD"
          then ret (Str (ofZ yyyy ++ "-" ++ mm ++ "-" ++ dd))
          else if String.eqb fmt "YYYY/MM/DD"
          then ret (Str (ofZ yyyy ++ "/" ++ mm ++ "/" ++ dd))
          else ret (Str (toISOString dt)))
      else if String.eqb s "uuid" then
        bind (draw faker_string_uuid) (fun u => ret (Str u))
      else if String.eqb s "string" then
        bind (draw faker_person_fullName) (fun n => ret (Str n))
      else if String.eqb s "email" then
        bind (draw faker_internet_email) (fun e => ret (Str (toLowerCase e)))
      else if String.eqb s "number" then
        bind (draw (faker_number_int 0 9999)) (fun n => ret (Number (ofInt n)))
      else ret Null
  | _ =>
      lift (_ <- get typeSpec "startsWith" ;;
            Throw (TypeError "typeSpec.startsWith is not a function"))%result
  end.

(** The loop of [buildRecord]: [rec[k] = genValue(t)] for each entry. *)
Fixpoint fillRecord (entries : list (string * Val)) (rec : list (string * Val))
  : M (list (string * Val)) :=
  match entries with
  | [] => ret rec
  | (k, t) :: rest =>
      bind (genValue t) (fun v => fillRecord rest (assign rec k v))
  end.

(** [buildRecord] *)
Definition buildRecord (schema : Val) : M Val :=
  bind (lift (Object_entries schema)) (fun entries =>
  bind (fillRecord entries []) (fun rec => ret (Obj rec))).

(** [Number(count.value)] *)
Definition Number_ (c : CountValue) : Num :=
  match c with
  | CountNumber n => n
  | CountText s => StringToNumber s
  end.

(** [Math.max(1, Math.min(10000, Number(count.value) || 1))] *)
Definition clampCount (c : CountValue) : Num :=
  Math_max (ofInt 1) (Math_min (ofInt 10000) (orElse (Number_ c) (ofInt 1))).

(** The [try] block of [onGenerate]. *)
Definition generate (st : State) : M (list Val) :=
  bind (lift (parseSchema (schemaText st))) (fun schema =>
  let n := clampCount (count st) in
  Array_from n (buildRecord schema)).

(** [onGenerate] *)
Definition onGenerate (st : State) (g : Rng) : State * Rng :=
  match generate st g with
  | (Ok recs, g') =>
      ({| endpoint := endpoint st; method := method st; count := count st;
          schemaText := schemaText st;
          result := Some recs; error := ""; working := false |}, g')
  | (Throw e, g') =>
      ({| endpoint := endpoint st; method := method st; count := count st;
          schemaText := schemaText st;
          result := None; error := message e; working := false |}, g')
  end.

(** [prettyResult] *)
Definition prettyResult (st : State) : string :=
  match result st with
  | Some recs => JSON_stringify (Arr recs)
  | None => ""
  end.

(** [mswText] *)
Definition mswText (st : State) : string :=
  match result st with
  | None => msg_placeholder
  | Some recs =>
      let data := JSON_stringify (Arr recs) in
      let ep := if String.eqb (endpoint st) "" then "/" else endpoint st in
      let m := toLowerCase (methodText (method st)) in
      "import { rest } from 'msw'" ++ nl ++
      nl ++
      "export const handlers = [" ++ nl ++
      "  rest." ++ m ++ "('" ++ ep ++ "', (req, res, ctx) => {" ++ nl ++
      "    return res(ctx.json(" ++ data ++ "))" ++ nl ++
      "  })" ++ nl ++
      "]"
  end.

(** [mapSchemaType] *)
Definition mapSchemaType (t f : Val) : string :=
  if isStr f "uuid" then "uuid"
  else if isStr f "email" then "email"
  else if orb (isStr f "date") (isStr f "date-time") then "date:YYYY-MM-DD"
  else if isStr t "string" then "string"
  else if orb (isStr t "integer") (isStr t "number") then "number"
  else "string".

(** The loop of [convertProps]: [r[k] = mapSchemaType(v.type, v.format)]. *)
Fixpoint fillSchema (entries : list (string * Val)) (r : list (string * Val))
  : Result (list (string * Val)) :=
  match entries with
  | [] => Ok r
  | (k, v) :: rest =>
      (t <- get v "type" ;;
       f <- get v "format" ;;
       fillSchema rest (assign r k (Str (mapSchemaType t f))))%result
  end.

(** [convertProps], the closure of [openApiToSchema]. *)
Definition convertProps (props : Val) : Result Val :=
  (entries <- Object_entries (if truthy props then props else Obj []) ;;
   r <- fillSchema entries [] ;;
   Ok (Obj r))%result.

(** [openApiToSchema] *)
Definition openApiToSchema (doc : Val) : Result Val :=
  if negb (truthy (optGet doc "paths")) then Throw (Error msg_paths)
  else
    (paths <- get doc "paths" ;;
     pathKeys <- Object_keys paths ;;
     let path := first pathKeys in
     item <- get paths (propertyKey path) ;;
     methodKeys <- Object_keys item ;;
     let method := first methodKeys in
     item' <- get paths (propertyKey path) ;;
     op <- get item' (propertyKey method) ;;
     let resp := optGet (optGet op "responses") "200" in
     let schema :=
       optGet (optGet (optGet resp "content") "application/json") "schema" in
     if negb (truthy schema) then Throw (Error msg_schema_missing)
     else
       isArrayForm <-
         (ty <- get schema "type" ;;
          if isStr ty "array"
          then items <- get schema "items" ;;
               Ok (truthy (optGet items "properties"))
          else Ok false) ;;
       if isArrayForm
       then items <- get schema "items" ;;
            props <- get items "properties" ;;
            convertProps props
       else
         isObjectForm <-
           (ty <- get schema "type" ;;
            if isStr ty "object"
            then props <- get schema "properties" ;; Ok (truthy props)
            else Ok false) ;;
         if isObjectForm
         then props <- get schema "properties" ;; convertProps props
         else Throw (Error msg_unsupported))%result.

(** An uploaded file: its name and the text [FileReader] read. *)
Record File : Type := { name : string; text : string }.

Definition endsWith (s suffix : string) : bool :=
  andb (Nat.leb (String.length suffix) (String.length s))
       (String.eqb (slice s (String.length s - String.length suffix)) suffix).

(** The test [/\.(ya?ml)$/i] on a file name. *)
Definition isYamlName (n : string) : bool :=
  let l := toLowerCase n in orb (endsWith l ".yaml") (endsWith l ".yml").

(** The [try] block of the [onload] callback. *)
Definition convert (f : File) : Result string :=
  (doc <- (if isYamlName (name f) then yaml_load (text f) else JSON_parse (text f)) ;;
   schema <- openApiToSchema doc ;;
   Ok (JSON_stringify schema))%result.

(** [onOpenApiUpload], with the callback run on the text that was read.
    No file selected: nothing happens. *)
Definition onOpenApiUpload (file : option File) (st : State) : State :=
  match file with
  | None => st
  | Some f =>
      match convert f with
      | Ok s =>
          {| endpoint := endpoint st; method := method st; count := count st;
             schemaText := s;
             result := result st; error := error st; working := working st |}
      | Throw err =>
          {| endpoint := endpoint st; method := method st; count := count st;
             schemaText := schemaText st;
             result := result st; error := label_openapi ++ message err;
             working := working st |}
      end
  end.

(** [const safe = (endpoint.value || 'mock').replace(/[^\w\-]+/g, '_')] *)
Definition safe (st : State) : string :=
  replaceUnsafe (if String.eqb (endpoint st) "" then "mock" else endpoint st).

(** [onDownloadJson] *)
Definition onDownloadJson (st : State) : list Effect :=
  match result st with
  | None => []
  | Some recs =>
      download (methodText (method st) ++ "_" ++ safe st ++ ".json")
               (JSON_stringify (Arr recs))
               (Some "application/json")
  end.

(** [copyMsw].  [clipboard] is [None] when [navigator.clipboard] is
    missing, and otherwise says whether the promise of [writeText] is
    fulfilled; the second [alert] is its [then]. *)
Definition copyMsw (clipboard : option bool) (st : State) : list Effect :=
  match clipboard with
  | None => [Alert msg_no_clipboard]
  | Some fulfilled =>
      ClipboardWrite (mswText st) :: (if fulfilled then [Alert msg_copied] else [])
  end.

(** [downloadMsw] *)
Definition downloadMsw (st : State) : list Effect :=
  match result st with
  | None => []
  | Some _ =>
      download ("msw_" ++ methodText (method st) ++ "_" ++ safe st ++ ".ts")
               (mswText st)
               None
  end.

End WithPlatform.

End App.

(** ** A reference platform *)

(** An executable implementation of the interface: a JSON reader and
    writer after ECMA-404 and the [JSON.stringify] algorithm, a
    [Number(s)] for the numeric literals, and a deterministic random source
    in the place of faker.  Finite numbers are kept exact; the rounding of
    a literal to binary64 is not reproduced. *)
Module Reference.
Import Js Text.

(** *** Reading JSON *)

Definition isWs (c : ascii) : bool :=
  let n := nat_of_ascii c in
  orb (orb (Nat.eqb n 32) (Nat.eqb n 9)) (orb (Nat.eqb n 10) (Nat.eqb n 13)).

Fixpoint skipWs (s : string) : string :=
  match s with
  | String c r => if isWs c then skipWs r else s
  | EmptyString => s
  end.

(** The longest prefix of decimal digits, as the digits read so far and
    their count, and the rest. *)
Fixpoint digits (s : string) (acc : N) (n : nat) : N * nat * string :=
  match s with
  | String c r =>
      if isDigit c
      then digits r (acc * 10 + N.of_nat (nat_of_ascii c - 48)) (S n)
      else (acc, n, s)
  | EmptyString => (acc, n, s)
  end.

(** [m * 10^e] as an exact rational. *)
Definition scale (m : Z) (e : Z) : Q :=
  if 0 <=? e then inject_Z (m * 10 ^ e)
  else Qred (Qmake m (Z.to_pos (10 ^ (- e)))).

Definition exponent (s : string) : option (Z * string) :=
  match s with
  | String c r =>
      if orb (Ascii.eqb c "e") (Ascii.eqb c "E") then
        let '(neg, r1) :=
          match r with
          | String "-" r' => (true, r')
          | String "+" r' => (false, r')
          | _ => (false, r)
          end in
        match digits r1 0 0 with
        | (_, O, _) => None
        | (e, _, r2) => Some (if neg then - Z.of_N e else Z.of_N e, r2)
        end
      else Some (0, s)
  | EmptyString => Some (0, s)
  end.

Definition fraction (s : string) (int : N) : option (N * nat * string) :=
  match s with
  | String "." r =>
      match digits r int 0 with
      | (_, O, _) => None
      | (m, k, r') => Some (m, k, r')
      end
  | _ => Some (int, O, s)
  end.

(** A JSON number: [-? int frac? exp?], no leading zero in [int]. *)
Definition number (s : string) : option (Num * string) :=
  let '(neg, s1) :=
    match s with
    | String "-" r => (true, r)
    | _ => (false, s)
    end in
  match s1 with
  | String c _ =>
      if isDigit c then
        let '(int, k, r) := digits s1 0 0 in
        if andb (Ascii.eqb c "0") (Nat.ltb 1 k) then None
        else
          match fraction r int with
          | Some (m, f, r1) =>
              match exponent r1 with
              | Some (e, r2) =>
                  let z := if neg then - Z.of_N m else Z.of_N m in
                  Some (Fin (scale z (e - Z.of_nat f)), r2)
              | None => None
              end
          | None => None
          end
      else None
  | EmptyString => None
  end.

Definition hexDigit (c : ascii) : option N :=
  let n := nat_of_ascii c in
  if andb (Nat.leb 48 n) (Nat.leb n 57) then Some (N.of_nat (n - 48))
  else if andb (Nat.leb 97 n) (Nat.leb n 102) then Some (N.of_nat (n - 87))
  else if andb (Nat.leb 65 n) (Nat.leb n 70) then Some (N.of_nat (n - 55))
  else None.

Definition hex4 (s : string) : option (N * string) :=
  match s with
  | String a (String b (String c (String d r))) =>
      match hexDigit a, hexDigit b, hexDigit c, hexDigit d with
      | Some x, Some y, Some z, Some w =>
          Some (((x * 16 + y) * 16 + z) * 16 + w, r)%N
      | _, _, _, _ => None
      end
  | _ => None
  end.

Definition byte (n : N) : string := String (ascii_of_N n) EmptyString.

(** The UTF-8 bytes of a code point. *)
Definition utf8 (cp : N) : string :=
  (if cp <? 128 then byte cp
   else if cp <? 2048 then byte (192 + cp / 64) ++ byte (128 + cp mod 64)
   else if cp <? 65536 then
     byte (224 + cp / 4096) ++ byte (128 + (cp / 64) mod 64) ++ byte (128 + cp mod 64)
   else
     byte (240 + cp / 262144) ++ byte (128 + (cp / 4096) mod 64) ++
     byte (128 + (cp / 64) mod 64) ++ byte (128 + cp mod 64))%N.

Definition isHigh (u : N) : bool := andb (55296 <=? u)%N (u <=? 56319)%N.
Definition isLow (u : N) : bool := andb (56320 <=? u)%N (u <=? 57343)%N.

(** The characters of a string literal after its opening quote.  The
    fuel bounds the number of characters; the length of the text is
    enough. *)
Fixpoint chars (fuel : nat) (s : string) : option (string * string) :=
  match fuel with
  | O => None
  | S fuel' =>
      match s with
      | EmptyString => None
      | String c r =>
          if Ascii.eqb c "034" then Some (EmptyString, r)
          else if Ascii.eqb c "092" then
            match r with
            | String e r1 =>
                let plain (x : string) :=
                  match chars fuel' r1 with
                  | Some (t, r2) => Some (x ++ t, r2)
                  | None => None
                  end in
                if Ascii.eqb e "034" then plain dquote
                else if Ascii.eqb e "092" then plain (byte 92)
                else if Ascii.eqb e "/" then plain "/"
                else if Ascii.eqb e "b" then plain (byte 8)
                else if Ascii.eqb e "f" then plain (byte 12)
                else if Ascii.eqb e "n" then plain (byte 10)
                else if Ascii.eqb e "r" then plain (byte 13)
                else if Ascii.eqb e "t" then plain (byte 9)
                else if Ascii.eqb e "u" then
                  match hex4 r1 with
                  | Some (u, r2) =>
                      let single :=
                        match chars fuel' r2 with
                        | Some (t, r3) => Some (utf8 u ++ t, r3)
                        | None => None
                        end in
                      if isHigh u then
                        match r2 with
                        | String "092"%char (String "u" r3) =>
                            match hex4 r3 with
                            | Some (l, r4) =>
                                if isLow l then
                                  match chars fuel' r4 with
                                  | Some (t, r5) =>
                                      Some (utf8 (65536 + (u - 55296) * 1024 + (l - 56320))%N ++ t, r5)
                                  | None => None
                                  end
                                else single
                            | None => None
                            end
                        | _ => single
                        end
                      else single
                  | None => None
                  end
                else None
            | EmptyString => None
            end
          else if Nat.ltb (nat_of_ascii c) 32 then None
          else
            match chars fuel' r with
            | Some (t, r1) => Some (String c t, r1)
            | None => None
            end
      end
  end.

Definition literal (s : string) : option (string * string) :=
  match s with
  | String c r => if Ascii.eqb c "034" then chars (String.length r) r else None
  | EmptyString => None
  end.

(** A value, the members of an object after [{] and the elements of an
    array after [[].  A member is created with CreateDataProperty
    ([Js.put]): a repeated key keeps its first place and its last
    value, and [__proto__] is an own property like any other. *)
Fixpoint value (fuel : nat) (s : string) : option (Val * string) :=
  match fuel with
  | O => None
  | S fuel' =>
      let s := skipWs s in
      match s with
      | String "{" r =>
          match skipWs r with
          | String "}" r' => Some (Obj [], r')
          | _ => members fuel' r []
          end
      | String "[" r =>
          match skipWs r with
          | String "]" r' => Some (Arr [], r')
          | _ => elements fuel' r []
          end
      | String "t" (String "r" (String "u" (String "e" r))) => Some (Boolean true, r)
      | String "f" (String "a" (String "l" (String "s" (String "e" r)))) =>
          Some (Boolean false, r)
      | String "n" (String "u" (String "l" (String "l" r))) => Some (Null, r)
      | String c _ =>
          if Ascii.eqb c "034" then
            match literal s with
            | Some (t, r) => Some (Str t, r)
            | None => None
            end
          else
            match number s with
            | Some (n, r) => Some (Number n, r)
            | None => None
            end
      | EmptyString => None
      end
  end
with members (fuel : nat) (s : string) (acc : list (string * Val))
  : option (Val * string) :=
  match fuel with
  | O => None
  | S fuel' =>
      match literal (skipWs s) with
      | Some (k, r) =>
          match skipWs r with
          | String ":" r1 =>
              match value fuel' r1 with
              | Some (v, r2) =>
                  let acc' := put acc k v in
                  match skipWs r2 with
                  | String "," r3 => members fuel' r3 acc'
                  | String "}" r3 => Some (Obj acc', r3)
                  | _ => None
                  end
              | None => None
              end
          | _ => None
          end
      | None => None
      end
  end
with elements (fuel : nat) (s : string) (acc : list Val)
  : option (Val * string) :=
  match fuel with
  | O => None
  | S fuel' =>
      match value fuel' s with
      | Some (v, r) =>
          match skipWs r with
          | String "," r1 => elements fuel' r1 (acc ++ [v])
          | String "]" r1 => Some (Arr (acc ++ [v]), r1)
          | _ => None
          end
      | None => None
      end
  end.

(** [JSON.parse(txt)]: one value between white space, or a
    [SyntaxError]. *)
Definition parse (txt : string) : Result Val :=
  match value (S (2 * String.length txt)) txt with
  | Some (v, r) =>
      match skipWs r with
      | EmptyString => Ok v
      | _ => Throw (SyntaxError "Unexpected non-whitespace character after JSON")
      end
  | None => Throw (SyntaxError "Unexpected token in JSON")
  end.


(** *** Writing JSON *)

Definition hexChar (n : N) : string :=
  byte (if n <? 10 then 48 + n else 87 + n)%N.

(** QuoteJSONString, one character at a time. *)
Definition quoteChar (c : ascii) : string :=
  let n := N_of_ascii c in
  (if n =? 34 then byte 92 ++ dquote
   else if n =? 92 then byte 92 ++ byte 92
   else if n =? 8 then byte 92 ++ "b"
   else if n =? 9 then byte 92 ++ "t"
   else if n =? 10 then byte 92 ++ "n"
   else if n =? 12 then byte 92 ++ "f"
   else if n =? 13 then byte 92 ++ "r"
   else if n <? 32 then byte 92 ++ "u00" ++ hexChar (n / 16) ++ hexChar (n mod 16)
   else String c EmptyString)%N.

Fixpoint quoteBody (s : string) : string :=
  match s with
  | EmptyString => EmptyString
  | String c r => quoteChar c ++ quoteBody r
  end.

Definition quote (s : string) : string := dquote ++ quoteBody s ++ dquote.

Fixpoint join (sep : string) (l : list string) : string :=
  match l with
  | [] => ""
  | [x] => x
  | x :: t => x ++ sep ++ join sep t
  end.

(** The decimal digits of the fractional part [r / d], at most [n] of
    them, stopping when the expansion ends. *)
Fixpoint fracDigits (n : nat) (r : Z) (d : Z) : string :=
  match n with
  | O => ""
  | S n' =>
      if r =? 0 then ""
      else ofZ ((r * 10) / d) ++ fracDigits n' ((r * 10) mod d) d
  end.

(** Number::toString.  Exact on the integers below 10^21 in magnitude,
    which is what the program writes; a fraction is written by its
    decimal expansion. *)
Definition numberText (n : Num) : string :=
  match n with
  | NaN => "NaN"
  | PosInf => "Infinity"
  | NegInf => "-Infinity"
  | Fin q =>
      let d := Z.pos (Qden q) in
      let a := Z.abs (Qnum q) in
      let sign := if Qnum q <? 0 then "-" else "" in
      if a mod d =? 0 then sign ++ ofZ (a / d)
      else sign ++ ofZ (a / d) ++ "." ++ fracDigits 17 (a mod d) d
  end.

(** SerializeJSONProperty with a gap of two spaces; [None] is the
    [undefined] that makes an object skip the member and an array write
    [null]. *)
Fixpoint serialize (indent : string) (v : Val) : option string :=
  match v with
  | Undefined => None
  | Null => Some "null"
  | Boolean true => Some "true"
  | Boolean false => Some "false"
  | Number (Fin q) => Some (numberText (Fin q))
  | Number _ => Some "null"
  | Str s => Some (quote s)
  | Arr items =>
      let inner := indent ++ "  " in
      let parts :=
        (fix each (l : list Val) : list string :=
           match l with
           | [] => []
           | x :: t =>
               match serialize inner x with
               | Some s => s
               | None => "null"
               end :: each t
           end) items in
      match parts with
      | [] => Some "[]"
      | _ => Some ("[" ++ nl ++ inner ++ join ("," ++ nl ++ inner) parts ++ nl ++ indent ++ "]")
      end
  | Obj props =>
      let inner := indent ++ "  " in
      let written :=
        (fix each (l : list (string * Val)) : list (string * option string) :=
           match l with
           | [] => []
           | (k, x) :: t => (k, serialize inner x) :: each t
           end) props in
      let parts :=
        flat_map (fun e : string * option string =>
                    match snd e with
                    | Some s => [quote (fst e) ++ ": " ++ s]
                    | None => []
                    end)
                 (ownProps written) in
      match parts with
      | [] => Some "{}"
      | _ => Some ("{" ++ nl ++ inner ++ join ("," ++ nl ++ inner) parts ++ nl ++ indent ++ "}")
      end
  end.

(** [JSON.stringify(v, null, 2)] on a value that has a text. *)
Definition stringify (v : Val) : string :=
  match serialize "" v with
  | Some s => s
  | None => "undefined"
  end.

(** *** Number(s) *)

Definition isStrWs (c : ascii) : bool :=
  let n := nat_of_ascii c in
  orb (Nat.eqb n 32) (andb (Nat.leb 9 n) (Nat.leb n 13)).

Fixpoint trimStart (s : string) : string :=
  match s with
  | String c r => if isStrWs c then trimStart r else s
  | EmptyString => s
  end.

Fixpoint allWs (s : string) : bool :=
  match s with
  | String c r => andb (isStrWs c) (allWs r)
  | EmptyString => true
  end.

(** StrUnsignedDecimalLiteral: [Infinity], [d+ (. d* )? exp?] or
    [. d+ exp?]; the rest must be white space. *)
Definition unsignedDecimal (neg : bool) (s : string) : Num :=
  if andb (startsWith s "Infinity") (allWs (slice s 8))
  then (if neg then NegInf else PosInf)
  else
    let '(int, k, r) := digits s 0 0 in
    let '(m, f, r1) :=
      match r with
      | String "." r' => digits r' int 0
      | _ => (int, O, r)
      end in
    if Nat.eqb (k + f) 0 then NaN
    else
      match exponent r1 with
      | Some (e, r2) =>
          if allWs r2
          then Fin (scale (if neg then - Z.of_N m else Z.of_N m) (e - Z.of_nat f))
          else NaN
      | None => NaN
      end.

(** The digits of a literal in base 2, 8 or 16. *)
Fixpoint radixDigits (base : N) (s : string) (acc : N) (n : nat) : N * nat * string :=
  match s with
  | String c r =>
      match hexDigit c with
      | Some d =>
          if (d <? base)%N then radixDigits base r (acc * base + d)%N (S n)
          else (acc, n, s)
      | None => (acc, n, s)
      end
  | EmptyString => (acc, n, s)
  end.

(** NonDecimalIntegerLiteral: [0x], [0o] or [0b] and digits, unsigned. *)
Definition nonDecimal (s : string) : option Num :=
  match s with
  | String "0" (String c r) =>
      let base :=
        if orb (Ascii.eqb c "x") (Ascii.eqb c "X") then Some 16%N
        else if orb (Ascii.eqb c "o") (Ascii.eqb c "O") then Some 8%N
        else if orb (Ascii.eqb c "b") (Ascii.eqb c "B") then Some 2%N
        else None in
      match base with
      | Some b =>
          let '(v, k, rest) := radixDigits b r 0 0 in
          if andb (Nat.ltb 0 k) (allWs rest) then Some (ofInt (Z.of_N v)) else Some NaN
      | None => None
      end
  | _ => None
  end.

(** StringToNumber: an empty or blank text is 0; otherwise a numeric
    literal between white space, or NaN. *)
Definition toNumber (s : string) : Num :=
  match trimStart s with
  | EmptyString => Fin 0
  | String "-" r => unsignedDecimal true r
  | String "+" r => unsignedDecimal false r
  | t =>
      match nonDecimal t with
      | Some n => n
      | None => unsignedDecimal false t
      end
  end.

(** *** A deterministic random source *)

Definition next (g : N) : N := ((g * 1103515245 + 12345) mod 2147483648)%N.

Definition pick (names : list string) (g : N) : string :=
  nth (N.to_nat ((g / 65536) mod N.of_nat (List.length names)))%N names "".

Fixpoint hexRun (n : nat) (g : N) : string * N :=
  match n with
  | O => ("", g)
  | S n' =>
      let (t, g') := hexRun n' (next g) in
      (hexChar ((g / 65536) mod 16)%N ++ t, g')
  end.

Definition uuid (g : N) : string * N :=
  let (a, g1) := hexRun 8 g in
  let (b, g2) := hexRun 4 g1 in
  let (c, g3) := hexRun 3 g2 in
  let (d, g4) := hexRun 3 g3 in
  let (e, g5) := hexRun 12 g4 in
  (a ++ "-" ++ b ++ "-4" ++ c ++ "-a" ++ d ++ "-" ++ e, g5).

Definition firstNames : list string := ["Ada"; "Grace"; "Alan"; "Edsger"; "Barbara"].
Definition lastNames : list string := ["Lovelace"; "Hopper"; "Turing"; "Dijkstra"; "Liskov"].

Definition fullName (g : N) : string * N :=
  (pick firstNames g ++ " " ++ pick lastNames (next g), next (next g)).

Definition email (g : N) : string * N :=
  (pick firstNames g ++ "." ++ pick lastNames (next g) ++ "@example.com", next (next g)).

Definition int (lo hi : Z) (g : N) : Z * N :=
  (if lo <=? hi then lo + (Z.of_N (g / 65536)) mod (hi - lo + 1) else lo, next g).

Definition between (from to : string) (g : N) : Date * N :=
  let y := 2018 + Z.of_N ((g / 65536) mod 8) in
  let m := Z.of_N ((next g / 65536) mod 12) in
  let d := 1 + Z.of_N ((next (next g) / 65536) mod 28) in
  ({| getFullYear := y; getMonth := m; getDate := d;
      toISOString :=
        ofZ y ++ "-" ++ padStart (ofZ (m + 1)) 2 "0" ++ "-" ++ padStart (ofZ d) 2 "0"
        ++ "T00:00:00.000Z" |},
   next (next (next g))).

(** [yaml.load] on the documents that are written as JSON, which YAML
    reads as the same tree. *)
Definition load (txt : string) : Result Val :=
  match parse txt with
  | Ok v => Ok v
  | Throw e => Throw (YAMLException (message e))
  end.

#[export] Instance platform : Platform := {|
  Rng := N;
  JSON_parse := parse;
  JSON_stringify := stringify;
  yaml_load := load;
  StringToNumber := toNumber;
  faker_string_uuid := uuid;
  faker_person_fullName := fullName;
  faker_internet_email := email;
  faker_number_int := int;
  faker_date_between := between
|}.

End Reference.

(** ** Vocabulary of the properties *)

Module Props.
Import Js Text App.

(** The tags [genValue] has a case for, besides the [date:] family. *)
Definition basicTags : list string := ["uuid"; "string"; "email"; "number"].

Definition recognized (tag : string) : bool :=
  orb (startsWith tag "date:") (existsb (String.eqb tag) basicTags).

(** The five tags [mapSchemaType] can return. *)
Definition reducerTags : list string :=
  ["uuid"; "email"; "date:YYYY-MM-DD"; "string"; "number"].

(** A field of a schema that carries one of them. *)
Definition reducerTag (e : string * Val) : Prop :=
  exists tag, snd e = Str tag /\ In tag reducerTags.

(** The whole text is [dddd-dd-dd], with [sep] for the dash: the shape
    the patterns [\d{4}-\d{2}-\d{2}] and [\d{4}/\d{2}/\d{2}] look for. *)
Definition datePattern (sep : ascii) (t : string) : bool :=
  match t with
  | String y1 (String y2 (String y3 (String y4 (String s1
    (String m1 (String m2 (String s2 (String d1 (String d2 EmptyString))))))))) =>
      forallb isDigit [y1; y2; y3; y4; m1; m2; d1; d2]
      && Ascii.eqb s1 sep && Ascii.eqb s2 sep
  | _ => false
  end.

(** A text of exactly [n] decimal digits. *)
Fixpoint digitsOnly (n : nat) (s : string) : bool :=
  match n, s with
  | O, EmptyString => true
  | S n', String c s' => andb (isDigit c) (digitsOnly n' s')
  | _, _ => false
  end.

(** A flat schema: an object whose values are all strings. *)
Definition isString (v : Val) : bool :=
  match v with Str _ => true | _ => false end.

Definition flat (props : list (string * Val)) : bool :=
  forallb (fun e => isString (snd e)) props.

Definition keys (props : list (string * Val)) : list string := map fst props.

(** The keys of an object literal after [o[k] = v], from its keys
    before. *)
Definition assignKey (ks : list string) (k : string) : list string :=
  if String.eqb k "__proto__" then ks
  else if existsb (fun k' => String.eqb k' k) ks then ks
  else ks ++ [k].

(** The keys of the record [buildRecord] fills from a schema with the
    given own properties. *)
Definition recordKeys (props : list (string * Val)) : list string :=
  fold_left assignKey (keys (ownProps props)) [].

(** Index-tagged properties in ascending order of the index, each tag
    being the index its key denotes. *)
Definition byIndex {A : Type} (a b : N * (string * A)) : Prop :=
  (fst a <= fst b)%N.

Definition tagged {A : Type} (x : N * (string * A)) : Prop :=
  arrayIndex (fst (snd x)) = Some (fst x).

Definition isNamed {A : Type} (e : string * A) : Prop :=
  arrayIndex (fst e) = None.

(** The position of a number against the range [1, 10000]. *)
Definition belowRange (x : Num) : Prop :=
  match x with
  | NegInf => True
  | Fin q => (q < 1)%Q
  | _ => False
  end.

Definition aboveRange (x : Num) : Prop :=
  match x with
  | PosInf => True
  | Fin q => (10000 < q)%Q
  | _ => False
  end.

(** The mapping table of the specification, read top to bottom: a row
    is a test on the format, a test on the type, and the tag. *)
Inductive Cell : Type :=
| Any
| OneOf (options : list string).

Definition cellMatches (c : Cell) (v : Val) : bool :=
  match c with
  | Any => true
  | OneOf options =>
      match v with
      | Str s => existsb (String.eqb s) options
      | _ => false
      end
  end.

Definition typeTable : list (Cell * Cell * string) :=
  [ (OneOf ["uuid"], Any, "uuid");
    (OneOf ["email"], Any, "email");
    (OneOf ["date"; "date-time"], Any, "date:YYYY-MM-DD");
    (Any, OneOf ["string"], "string");
    (Any, OneOf ["integer"; "number"], "number");
    (Any, Any, "string") ].

Fixpoint firstRow (rows : list (Cell * Cell * string)) (t f : Val) : option string :=
  match rows with
  | [] => None
  | (cf, ct, tag) :: rest =>
      if andb (cellMatches cf f) (cellMatches ct t) then Some tag
      else firstRow rest t f
  end.

(** An optional string argument ([t?: string]). *)
Definition optional (o : option string) : Val :=
  match o with
  | Some s => Str s
  | None => Undefined
  end.

(** The OpenAPI document of the end-to-end example. *)
Definition petsSchema : Val :=
  Obj [("type", Str "array");
       ("items", Obj [("properties",
          Obj [("id", Obj [("type", Str "string"); ("format", Str "uuid")]);
               ("age", Obj [("type", Str "integer")])])])].

Definition petsDoc : Val :=
  Obj [("paths",
    Obj [("/pets",
      Obj [("get",
        Obj [("responses",
          Obj [("200",
            Obj [("content",
              Obj [("application/json",
                Obj [("schema", petsSchema)])])])])])])])].

(** Documents on which the reducer leaves its own error messages. *)
Definition emptyPathsDoc : Val := Obj [("paths", Obj [])].
Definition nullPathItemDoc : Val := Obj [("paths", Obj [("/pets", Null)])].
Definition emptyPathItemDoc : Val := Obj [("paths", Obj [("/pets", Obj [])])].

(** A document whose schema has the object form, with a null property. *)
Definition nullPropertyDoc : Val :=
  Obj [("paths",
    Obj [("/pets",
      Obj [("get",
        Obj [("responses",
          Obj [("200",
            Obj [("content",
              Obj [("application/json",
                Obj [("schema",
                  Obj [("type", Str "object");
                       ("properties", Obj [("id", Null)])])])])])])])])])].

(** The nodes [openApiToSchema] walks through, read without exceptions. *)
Definition nullish (v : Val) : bool :=
  match v with
  | Undefined | Null => true
  | _ => false
  end.

Definition firstKey (v : Val) : Val :=
  match Object_keys v with
  | Ok ks => first ks
  | Throw _ => Undefined
  end.

Definition pathsNode (doc : Val) : Val := optGet doc "paths".

Definition pathItem (doc : Val) : Val :=
  optGet (pathsNode doc) (propertyKey (firstKey (pathsNode doc))).

Definition operation (doc : Val) : Val :=
  optGet (pathItem doc) (propertyKey (firstKey (pathItem doc))).

Definition schemaNode (doc : Val) : Val :=
  optGet (optGet (optGet (optGet (optGet (operation doc)
    "responses") "200") "content") "application/json") "schema".

(** The two supported forms of a schema. *)
Definition arrayForm (schema : Val) : bool :=
  andb (isStr (optGet schema "type") "array")
       (truthy (optGet (optGet schema "items") "properties")).

Definition objectForm (schema : Val) : bool :=
  andb (isStr (optGet schema "type") "object")
       (truthy (optGet schema "properties")).

(** A schema with the field [__proto__]. *)
Definition protoSchema : Val := Obj [("__proto__", Str "uuid")].

(** The text of the handler around the serialized data. *)
Definition handlerHead (m ep : string) : string :=
  "import { rest } from 'msw'" ++ nl ++ nl ++
  "export const handlers = [" ++ nl ++
  "  rest." ++ m ++ "('" ++ ep ++ "', (req, res, ctx) => {" ++ nl ++
  "    return res(ctx.json(".

Definition handlerTail : string :=
  "))" ++ nl ++ "  })" ++ nl ++ "]".

Definition lowerMethod (m : HttpMethod) : string :=
  match m with
  | GET => "get"
  | POST => "post"
  | PUT => "put"
  | DELETE => "delete"
  end.

(** States for the examples: the initial state with another schema text
    and count. *)
Definition withInput (txt : string) (c : CountValue) (st : State) : State :=
  {| endpoint := endpoint st; method := method st; count := c;
     schemaText := txt; result := result st; error := error st;
     working := working st |}.

(** The schema texts [{"m":"string"}] and [{"__proto__":"uuid"}]. *)
Definition mSchemaText : string :=
  "{" ++ dquote ++ "m" ++ dquote ++ ":" ++ dquote ++ "string" ++ dquote ++ "}".

Definition protoSchemaText : string :=
  "{" ++ dquote ++ "__proto__" ++ dquote ++ ":" ++ dquote ++ "uuid" ++ dquote ++ "}".

(** Every character of a text passes a test. *)
Fixpoint allChars (p : ascii -> bool) (s : string) : bool :=
  match s with
  | EmptyString => true
  | String c r => andb (p c) (allChars p r)
  end.

Definition isUpper (c : ascii) : bool :=
  let n := nat_of_ascii c in andb (Nat.leb 65 n) (Nat.leb n 90).

(** The characters of a file name that needs no quoting: word
    characters, the hyphen and the dot. *)
Definition isFileNameChar (c : ascii) : bool :=
  orb (isWordOrHyphen c) (Ascii.eqb c ".").

Definition namesAreSafe (effects : list Effect) : Prop :=
  Forall (fun eff =>
            match eff with
            | Download fileName _ _ => allChars isFileNameChar fileName = true
            | _ => True
            end) effects.

(** A state after a failed generation. *)
Definition failed (st : State) (e : Exn) : State :=
  {| endpoint := endpoint st; method := method st; count := count st;
     schemaText := schemaText st; result := None; error := message e;
     working := false |}.

(** The field of a reduced schema for one property of the document. *)
Definition reducedField (e : string * Val) : string * Val :=
  (fst e, Str (mapSchemaType (optGet (snd e) "type") (optGet (snd e) "format"))).

Definition noNull (r : Val) : Prop :=
  exists rec, r = Obj rec /\ Forall (fun e => snd e <> Null) rec.

(** The example document, with a second path after the first. *)
Definition petsItem : Val :=
  Obj [("get",
    Obj [("responses",
      Obj [("200",
        Obj [("content",
          Obj [("application/json",
            Obj [("schema", petsSchema)])])])])])].

Definition usersItem : Val :=
  Obj [("get",
    Obj [("responses",
      Obj [("200",
        Obj [("content",
          Obj [("application/json",
            Obj [("schema",
              Obj [("type", Str "object");
                   ("properties", Obj [("name", Obj [("type", Str "string")])])])])])])])])].

(** The properties of the example schema. *)
Definition petsProperties : list (string * Val) :=
  [("id", Obj [("type", Str "string"); ("format", Str "uuid")]);
   ("age", Obj [("type", Str "integer")])].

(** The schema text [{"a":1}], whose one field is not a tag. *)
Definition numberSchemaText : string :=
  "{" ++ dquote ++ "a" ++ dquote ++ ":1}".

(** The state after a generation on the reference platform, and the same
    state with a schema text that is not JSON. *)
Definition generatedState : State :=
  fst (@onGenerate Reference.platform
         (withInput mSchemaText (CountNumber (ofInt 3)) initial) 42%N).

Definition notJsonState : State :=
  withInput "not json" (CountNumber (ofInt 3)) generatedState.

(** The text [yyyy-mm-dd] of a date, with [sep] for the dash. *)
Definition dateText (sep : string) (dt : Date) : string :=
  ofZ (getFullYear dt) ++ sep ++ padStart (ofZ (getMonth dt + 1)) 2 "0"
    ++ sep ++ padStart (ofZ (getDate dt)) 2 "0".

(** [Synthesized tag g v g']: for a tag of the reducer, [v] is the value
    the random source gives at state [g], and [g'] the state after the
    draw: the identifier of [faker.string.uuid], the name of
    [faker.person.fullName], the address of [faker.internet.email] in
    lower case, the integer of [faker.number.int] between 0 and 9999, or
    the day of [faker.date.between] over 2018-01-01..2025-12-31 written
    yyyy-mm-dd. *)
Inductive Synthesized `{P : Platform} : string -> Rng -> Val -> Rng -> Prop :=
| syn_uuid (g : Rng) :
    Synthesized "uuid" g
      (Str (fst (faker_string_uuid g))) (snd (faker_string_uuid g))
| syn_string (g : Rng) :
    Synthesized "string" g
      (Str (fst (faker_person_fullName g))) (snd (faker_person_fullName g))
| syn_email (g : Rng) :
    Synthesized "email" g
      (Str (toLowerCase (fst (faker_internet_email g))))
      (snd (faker_internet_email g))
| syn_number (g : Rng) :
    Synthesized "number" g
      (Number (ofInt (fst (faker_number_int 0 9999 g))))
      (snd (faker_number_int 0 9999 g))
| syn_date (g : Rng) :
    Synthesized "date:YYYY-MM-DD" g
      (Str (dateText "-" (fst (faker_date_between "2018-01-01" "2025-12-31" g))))
      (snd (faker_date_between "2018-01-01" "2025-12-31" g)).

(** [Filled fields g rec g']: [rec] has the fields of [fields], in their
    order, and the value of each is synthesized for the tag of the field,
    the draws following one another from [g] to [g']. *)
Inductive Filled `{P : Platform}
  : list (string * Val) -> Rng -> list (string * Val) -> Rng -> Prop :=
| filled_nil (g : Rng) : Filled [] g [] g
| filled_cons (k tag : string) (rest : list (string * Val)) (g g1 g' : Rng)
              (v : Val) (rec : list (string * Val)) :
    Synthesized tag g v g1 ->
    Filled rest g1 rec g' ->
    Filled ((k, Str tag) :: rest) g ((k, v) :: rec) g'.

(** An uploaded file holding the example document as JSON. *)
Definition petsFile : File :=
  {| name := "pets.json"; text := Reference.stringify petsDoc |}.

End Props.

Import Js Text App Props.

(** ** Properties *)

(** *** Results and the generator monad *)

Lemma rbind_Ok {A B : Type} (r : Result A) (k : A -> Result B) (b : B) :
  rbind r k = Ok b -> exists a, r = Ok a /\ k a = Ok b.
Proof.
  destruct r as [a | e]; simpl; intros H; [eauto | discriminate].
Qed.

(** *** mapSchemaType *)

Lemma mapSchemaType_range (t f : Val) : In (mapSchemaType t f) reducerTags.
Proof.
  unfold mapSchemaType, reducerTags.
  repeat match goal with
         | |- context [if ?b then _ else _] => destruct b
         end; simpl; tauto.
Qed.

Lemma mapSchemaType_firstRow (t f : Val) :
  firstRow typeTable t f = Some (mapSchemaType t f).
Proof.
  unfold mapSchemaType, typeTable, firstRow, cellMatches, isStr.
  destruct f as [| | b | n | s | l | o], t as [| | b' | n' | s' | l' | o'];
    simpl; try reflexivity;
    rewrite ?orb_false_r, ?andb_true_r;
    repeat match goal with
           | |- context [String.eqb ?a ?b] => destruct (String.eqb a b); simpl
           end; reflexivity.
Qed.

Lemma mapSchemaType_by_type (t f : Val) :
  existsb (isStr f) ["uuid"; "email"; "date"; "date-time"] = false ->
  mapSchemaType t f =
    if isStr t "string" then "string"
    else if orb (isStr t "integer") (isStr t "number") then "number"
    else "string".
Proof.
  unfold mapSchemaType; simpl. rewrite orb_false_r.
  destruct (isStr f "uuid"); simpl; [discriminate |].
  destruct (isStr f "email"); simpl; [discriminate |].
  destruct (isStr f "date"); simpl; [discriminate |].
  destruct (isStr f "date-time"); simpl; [discriminate | reflexivity].
Qed.

(** C7. [mapSchemaType] is a total function of its two arguments, and on
    every pair of values, in particular on every pair of optional strings,
    it returns the tag of the first row of the table that matches.  Read
    out: format uuid gives "uuid", format email gives "email", format date
    or date-time gives "date:YYYY-MM-DD", whatever the type; under any
    other or missing format, type string gives "string", type integer or
    number gives "number", and any other or missing type gives the
    default "string". *)
Theorem mapSchemaType_table (t f : Val) :
  firstRow typeTable t f = Some (mapSchemaType t f) /\
  mapSchemaType t (Str "uuid") = "uuid" /\
  mapSchemaType t (Str "email") = "email" /\
  mapSchemaType t (Str "date") = "date:YYYY-MM-DD" /\
  mapSchemaType t (Str "date-time") = "date:YYYY-MM-DD" /\
  (if existsb (isStr f) ["uuid"; "email"; "date"; "date-time"] then True
   else
     mapSchemaType (Str "string") f = "string" /\
     mapSchemaType (Str "integer") f = "number" /\
     mapSchemaType (Str "number") f = "number" /\
     (if existsb (isStr t) ["string"; "integer"; "number"] then True
      else mapSchemaType t f = "string")) /\
  mapSchemaType (optional None) (optional None) = "string".
Proof.
  split; [apply mapSchemaType_firstRow |].
  do 4 (split; [reflexivity |]).
  split; [| reflexivity].
  destruct (existsb (isStr f) ["uuid"; "email"; "date"; "date-time"]) eqn:Hf; [exact I |].
  rewrite !mapSchemaType_by_type by exact Hf.
  do 3 (split; [reflexivity |]).
  destruct (existsb (isStr t) ["string"; "integer"; "number"]) eqn:Ht; [exact I |].
  simpl in Ht. rewrite orb_false_r in Ht.
  destruct (isStr t "string"); simpl in *; [discriminate |].
  destruct (isStr t "integer"); simpl in *; [discriminate |].
  destruct (isStr t "number"); simpl in *; [discriminate | reflexivity].
Qed.

(** *** openApiToSchema *)

Lemma truthy_get (v : Val) (k : string) :
  truthy (optGet v k) = true -> get v k = Ok (optGet v k).
Proof.
  unfold optGet. destruct (get v k) as [x | e]; simpl; [reflexivity | discriminate].
Qed.

(** C5. On the document that maps "/pets" to a get operation whose 200
    application/json schema is an array of items with the properties
    id (string, format uuid) and age (integer), the reducer returns
    exactly the schema with id mapped to "uuid" and then age mapped to
    "number". *)
Theorem openApiToSchema_pets :
  openApiToSchema petsDoc = Ok (Obj [("id", Str "uuid"); ("age", Str "number")]).
Proof. vm_compute. reflexivity. Qed.

(** A document without a [paths] node, or with a falsy one, is refused
    with the message that names [paths]. *)
Lemma openApiToSchema_no_paths (doc : Val) :
  truthy (optGet doc "paths") = false ->
  openApiToSchema doc = Throw (Error msg_paths).
Proof.
  intros H. unfold openApiToSchema. rewrite H. reflexivity.
Qed.

(** C6, evaluated where the navigation leaves the reducer's own messages:
    a document whose [paths] object is empty, and one whose first path
    item is null, end in the engine's [TypeError] of [Object.keys], while
    the same path with an empty item ends in the message of the missing
    schema; and a null property under a schema of the object form ends in
    the [TypeError] of reading [type] from null. *)
Theorem openApiToSchema_generic_error :
  openApiToSchema emptyPathsDoc
    = Throw (TypeError "Cannot convert undefined or null to object") /\
  openApiToSchema nullPathItemDoc
    = Throw (TypeError "Cannot convert undefined or null to object") /\
  openApiToSchema emptyPathItemDoc = Throw (Error msg_schema_missing) /\
  openApiToSchema nullPropertyDoc
    = Throw (TypeError "Cannot read properties of null (reading 'type')").
Proof. repeat split; vm_compute; reflexivity. Qed.

Lemma nullish_truthy (v : Val) : truthy v = true -> nullish v = false.
Proof. destruct v; simpl; intros H; try reflexivity; discriminate. Qed.

Lemma get_not_nullish (v : Val) (k : string) :
  nullish v = false -> get v k = Ok (optGet v k).
Proof.
  unfold optGet. destruct v; simpl; try discriminate; intros _; try reflexivity.
  destruct (lookup props k); reflexivity.
Qed.

Lemma Object_keys_not_nullish (v : Val) :
  nullish v = false -> exists ks, Object_keys v = Ok ks /\ firstKey v = first ks.
Proof.
  unfold firstKey, Object_keys.
  destruct v; simpl; try discriminate; intros _; eexists; split; reflexivity.
Qed.

Lemma Object_keys_nullish (v : Val) :
  nullish v = true ->
  Object_keys v = Throw (TypeError "Cannot convert undefined or null to object").
Proof. destruct v; simpl; try discriminate; reflexivity. Qed.

(** The reducer, step by step, on a document that has a [paths] node: an
    absent or null first path item ends in the [TypeError] of
    [Object.keys]; otherwise the outcome is decided by the schema node
    and its form. *)
Lemma openApiToSchema_steps (doc : Val) :
  truthy (pathsNode doc) = true ->
  openApiToSchema doc =
    if nullish (pathItem doc)
    then Throw (TypeError "Cannot convert undefined or null to object")
    else if negb (truthy (schemaNode doc)) then Throw (Error msg_schema_missing)
    else if arrayForm (schemaNode doc)
    then convertProps (optGet (optGet (schemaNode doc) "items") "properties")
    else if objectForm (schemaNode doc)
    then convertProps (optGet (schemaNode doc) "properties")
    else Throw (Error msg_unsupported).
Proof.
  intros Hp. unfold openApiToSchema. fold (pathsNode doc). rewrite Hp. simpl negb. cbv iota.
  unfold pathsNode in Hp |- *.
  rewrite (truthy_get _ _ Hp). simpl rbind.
  destruct (Object_keys_not_nullish _ (nullish_truthy _ Hp)) as (ks & Hks & Hfirst).
  rewrite Hks. simpl rbind.
  assert (Hitem : get (optGet doc "paths") (propertyKey (first ks))
                  = Ok (pathItem doc)).
  { unfold pathItem, pathsNode. rewrite Hfirst.
    apply get_not_nullish, nullish_truthy, Hp. }
  rewrite Hitem. simpl rbind.
  destruct (nullish (pathItem doc)) eqn:Hn.
  - rewrite (Object_keys_nullish _ Hn). reflexivity.
  - destruct (Object_keys_not_nullish _ Hn) as (ms & Hms & Hfirst').
    rewrite Hms. simpl rbind.
    assert (Hop : get (pathItem doc) (propertyKey (first ms)) = Ok (operation doc)).
    { unfold operation. rewrite Hfirst'. apply get_not_nullish, Hn. }
    rewrite Hop. simpl rbind. fold (schemaNode doc).
    change (optGet (optGet (optGet (optGet (optGet (operation doc)
              "responses") "200") "content") "application/json") "schema")
      with (schemaNode doc).
    destruct (truthy (schemaNode doc)) eqn:Hs; simpl negb; cbv iota; [| reflexivity].
    pose proof (nullish_truthy _ Hs) as Hsn.
    unfold arrayForm, objectForm.
    rewrite !(get_not_nullish _ _ Hsn). simpl rbind.
    destruct (isStr (optGet (schemaNode doc) "type") "array") eqn:Ha; simpl.
    + destruct (truthy (optGet (optGet (schemaNode doc) "items") "properties")) eqn:Hpr.
      * rewrite (truthy_get _ _ Hpr). reflexivity.
      * destruct (optGet (schemaNode doc) "type") as [| | | | s | |]; try discriminate.
        simpl in Ha |- *. apply String.eqb_eq in Ha. subst s. reflexivity.
    + destruct (isStr (optGet (schemaNode doc) "type") "object"); simpl; [| reflexivity].
      destruct (truthy (optGet (schemaNode doc) "properties")); reflexivity.
Qed.

(** With a [paths] node and a first path item that is neither absent
    nor null, a missing schema node is reported by the message of the
    schema. *)
Lemma openApiToSchema_no_schema (doc : Val) :
  truthy (pathsNode doc) = true ->
  nullish (pathItem doc) = false ->
  truthy (schemaNode doc) = false ->
  openApiToSchema doc = Throw (Error msg_schema_missing).
Proof.
  intros Hp Hi Hs. rewrite (openApiToSchema_steps _ Hp), Hi, Hs. reflexivity.
Qed.

(** A schema in neither supported form is reported as unsupported. *)
Lemma openApiToSchema_unsupported (doc : Val) :
  truthy (pathsNode doc) = true ->
  nullish (pathItem doc) = false ->
  truthy (schemaNode doc) = true ->
  arrayForm (schemaNode doc) = false ->
  objectForm (schemaNode doc) = false ->
  openApiToSchema doc = Throw (Error msg_unsupported).
Proof.
  intros Hp Hi Hs Ha Ho.
  rewrite (openApiToSchema_steps _ Hp), Hi, Hs, Ha, Ho. reflexivity.
Qed.

(** *** Own properties *)

Section OwnProps.
Context {A : Type}.

Lemma In_insertIndexed (n : N) (e : string * A) (l : list (N * (string * A)))
      (x : N * (string * A)) :
  In x (insertIndexed n e l) <-> x = (n, e) \/ In x l.
Proof.
  induction l as [| [m e'] t IH]; simpl.
  - intuition congruence.
  - destruct (N.leb n m); simpl; [intuition congruence |].
    rewrite IH. intuition congruence.
Qed.

Lemma In_indexed (props : list (string * A)) (x : N * (string * A)) :
  In x (indexed props) -> In (snd x) props.
Proof.
  induction props as [| [k v] t IH]; simpl; [tauto |].
  destruct (arrayIndex k) as [n |].
  - rewrite In_insertIndexed. intros [-> | H]; simpl; auto.
  - auto.
Qed.

Lemma In_ownProps (props : list (string * A)) (e : string * A) :
  In e (ownProps props) -> In e props.
Proof.
  unfold ownProps, named. rewrite in_app_iff, in_map_iff, filter_In.
  intros [(x & <- & Hx) | [H _]]; [apply In_indexed, Hx | exact H].
Qed.

Lemma Forall_put (Q : string * A -> Prop) (props : list (string * A))
      (k : string) (v : A) :
  (forall k', Q (k', v)) -> Forall Q props -> Forall Q (put props k v).
Proof.
  intros Hv. induction 1 as [| [k' v'] t Hx Ht IH]; simpl.
  - constructor; [apply Hv | constructor].
  - destruct (String.eqb k' k); constructor; auto.
Qed.

End OwnProps.

Lemma Forall_assign (Q : string * Val -> Prop) (props : list (string * Val))
      (k : string) (v : Val) :
  (forall k', Q (k', v)) -> Forall Q props -> Forall Q (assign props k v).
Proof.
  intros Hv Hp. unfold assign.
  destruct (String.eqb k "__proto__"); [exact Hp | apply Forall_put; assumption].
Qed.

(** *** The tags the reducer emits *)

Lemma fillSchema_tags (entries r r' : list (string * Val)) :
  Forall reducerTag r -> fillSchema entries r = Ok r' -> Forall reducerTag r'.
Proof.
  revert r. induction entries as [| [k v] rest IH]; simpl; intros r Hr H.
  - injection H as <-. exact Hr.
  - apply rbind_Ok in H as (t & _ & H).
    apply rbind_Ok in H as (f & _ & H).
    apply IH in H; [exact H |].
    apply Forall_assign; [| exact Hr].
    intros k'. exists (mapSchemaType t f). split; [reflexivity | apply mapSchemaType_range].
Qed.

Lemma convertProps_tags (props schema : Val) :
  convertProps props = Ok schema ->
  exists fields, schema = Obj fields /\ Forall reducerTag fields.
Proof.
  unfold convertProps. intros H.
  apply rbind_Ok in H as (entries & _ & H).
  apply rbind_Ok in H as (r & Hr & H).
  injection H as <-. exists r. split; [reflexivity |].
  eapply fillSchema_tags; [constructor | exact Hr].
Qed.

Lemma openApiToSchema_tags (doc schema : Val) :
  openApiToSchema doc = Ok schema ->
  exists fields, schema = Obj fields /\ Forall reducerTag fields.
Proof.
  intros H.
  destruct (truthy (pathsNode doc)) eqn:Hp.
  - rewrite (openApiToSchema_steps _ Hp) in H.
    repeat match type of H with
           | (if ?b then _ else _) = _ => destruct b; try discriminate
           end; eapply convertProps_tags; exact H.
  - rewrite (openApiToSchema_no_paths _ Hp) in H. discriminate.
Qed.

(** *** genValue *)

Section Generator.
Context `{P : Platform}.

Lemma bind_Ok {A B : Type} (c : M A) (k : A -> M B) (g g' : Rng) (a : A) :
  c g = (Ok a, g') -> bind c k g = k a g'.
Proof. unfold bind. intros ->. reflexivity. Qed.

Lemma bind_draw {A B : Type} (f : Rng -> A * Rng) (k : A -> M B) (g : Rng) :
  bind (draw f) k g = k (fst (f g)) (snd (f g)).
Proof. unfold bind, draw. destruct (f g) as [a g']. reflexivity. Qed.

(** On a tag outside the vocabulary nothing is drawn and the value is
    null. *)
Lemma genValue_unknown (tag : string) (g : Rng) :
  recognized tag = false -> genValue (Str tag) g = (Ok Null, g).
Proof.
  unfold recognized, basicTags. simpl. rewrite !orb_false_r.
  intros H. repeat (apply orb_false_elim in H as [? H]).
  unfold genValue.
  repeat match goal with
         | E : ?b = false |- context [if ?b then _ else _] => rewrite E
         end.
  reflexivity.
Qed.

(** [genValue] returns on every string. *)
Lemma genValue_total (tag : string) (g : Rng) :
  exists v g', genValue (Str tag) g = (Ok v, g').
Proof.
  unfold genValue.
  repeat match goal with
         | |- context [if ?b then _ else _] => destruct b
         end;
    rewrite ?bind_draw; unfold ret;
    repeat match goal with
           | |- context [if ?b then _ else _] => destruct b
           end; eauto.
Qed.

(** On the five tags of the reducer the value is never null. *)
Lemma genValue_reducer_tag (tag : string) (g : Rng) :
  In tag reducerTags ->
  exists v g', genValue (Str tag) g = (Ok v, g') /\ v <> Null.
Proof.
  unfold reducerTags. simpl.
  intros [<- | [<- | [<- | [<- | [<- | []]]]]];
    unfold genValue; simpl; rewrite bind_draw; unfold ret;
    eexists; eexists; (split; [reflexivity | discriminate]).
Qed.

Lemma fillRecord_not_null (entries : list (string * Val)) :
  Forall reducerTag entries ->
  forall (rec : list (string * Val)) (g : Rng),
    Forall (fun e => snd e <> Null) rec ->
    exists rec' g',
      fillRecord entries rec g = (Ok rec', g') /\
      Forall (fun e => snd e <> Null) rec'.
Proof.
  induction 1 as [| [k t] rest (tag & Ht & Hin) _ IH]; intros rec g Hrec; simpl.
  - unfold ret. eauto.
  - simpl in Ht. subst t.
    destruct (genValue_reducer_tag tag g Hin) as (v & g1 & Hv & Hnn).
    rewrite (bind_Ok _ _ _ _ _ Hv).
    apply IH. apply Forall_assign; [intros k'; exact Hnn | exact Hrec].
Qed.

End Generator.

(** *** The texts of dates *)

Lemma forallb_range (f : Z -> bool) (lo len : Z) :
  forallb f (map (fun i => lo + Z.of_nat i) (seq 0 (Z.to_nat len))) = true ->
  forall z, lo <= z < lo + len -> f z = true.
Proof.
  intros H z Hz. rewrite forallb_forall in H. apply H.
  apply in_map_iff. exists (Z.to_nat (z - lo)). split; [lia |].
  apply in_seq. lia.
Qed.

Lemma year_text (y : Z) : 1000 <= y <= 9999 -> digitsOnly 4 (ofZ y) = true.
Proof.
  intros H.
  apply (forallb_range (fun y => digitsOnly 4 (ofZ y)) 1000 9000); [| lia].
  vm_compute. reflexivity.
Qed.

Lemma two_digit_text (n : Z) :
  1 <= n <= 31 -> digitsOnly 2 (padStart (ofZ n) 2 "0") = true.
Proof.
  intros H.
  apply (forallb_range (fun n => digitsOnly 2 (padStart (ofZ n) 2 "0")) 1 31); [| lia].
  vm_compute. reflexivity.
Qed.

Lemma digitsOnly_S (n : nat) (s : string) :
  digitsOnly (S n) s = true ->
  exists c s', s = String c s' /\ isDigit c = true /\ digitsOnly n s' = true.
Proof.
  destruct s as [| c s']; simpl; [discriminate |].
  intros H. apply andb_prop in H as [Hc Hs]. eauto.
Qed.

Lemma digitsOnly_O (s : string) : digitsOnly 0 s = true -> s = "".
Proof. destruct s; simpl; [reflexivity | discriminate]. Qed.

Ltac digits_of H :=
  repeat (let c := fresh "c" in
          let Hc := fresh "Hc" in
          apply digitsOnly_S in H as (c & ? & -> & Hc & H));
  apply digitsOnly_O in H as ->.

Lemma datePattern_join (sep : ascii) (y m d : string) :
  digitsOnly 4 y = true -> digitsOnly 2 m = true -> digitsOnly 2 d = true ->
  datePattern sep (y ++ String sep EmptyString ++ m ++ String sep EmptyString ++ d) = true.
Proof.
  intros Hy Hm Hd.
  digits_of Hy. digits_of Hm. digits_of Hd.
  simpl. rewrite Ascii.eqb_refl.
  repeat match goal with
         | H : isDigit _ = true |- _ => rewrite H; clear H
         end.
  reflexivity.
Qed.

Lemma calendar_date_text (sep : ascii) (dt : Date) :
  calendar_date dt ->
  datePattern sep
    (ofZ (getFullYear dt) ++ String sep EmptyString
       ++ padStart (ofZ (getMonth dt + 1)) 2 "0" ++ String sep EmptyString
       ++ padStart (ofZ (getDate dt)) 2 "0") = true.
Proof.
  intros (Hy & Hm & Hd).
  apply datePattern_join; [apply year_text | apply two_digit_text ..]; lia.
Qed.

(** C4. [genValue] returns on every string, whatever the tag: with a
    faker that keeps [number.int] within the bounds it is given and
    returns calendar dates, the tag "number" gives an integer in
    [0, 9999], "date:YYYY-MM-DD" gives a text of the shape dddd-dd-dd,
    "date:YYYY/MM/DD" a text of the shape dddd/dd/dd, and a tag outside
    the vocabulary gives null, with nothing drawn and no exception. *)
Theorem genValue_contract `{P : Platform} :
  number_int_in_bounds ->
  dates_are_calendar ->
  (forall tag g, exists v g', genValue (Str tag) g = (Ok v, g')) /\
  (forall g, exists n g',
     genValue (Str "number") g = (Ok (Number (ofInt n)), g') /\ 0 <= n <= 9999) /\
  (forall g, exists t g',
     genValue (Str "date:YYYY-MM-DD") g = (Ok (Str t), g') /\ datePattern "-" t = true) /\
  (forall g, exists t g',
     genValue (Str "date:YYYY/MM/DD") g = (Ok (Str t), g') /\ datePattern "/" t = true) /\
  (forall tag g, recognized tag = false -> genValue (Str tag) g = (Ok Null, g)).
Proof.
  intros Hint Hdate.
  split; [apply genValue_total |].
  split.
  { intros g. unfold genValue. simpl. rewrite bind_draw. unfold ret.
    eexists; eexists. split; [reflexivity |]. apply Hint. lia. }
  split.
  { intros g. unfold genValue. simpl. rewrite bind_draw. unfold ret.
    eexists; eexists. split; [reflexivity |].
    apply (calendar_date_text "-"), Hdate. }
  split.
  { intros g. unfold genValue. simpl. rewrite bind_draw. unfold ret.
    eexists; eexists. split; [reflexivity |].
    apply (calendar_date_text "/"), Hdate. }
  intros tag g. apply genValue_unknown.
Qed.

(** The reference random source keeps the two promises. *)
Lemma Reference_number_int : @number_int_in_bounds Reference.platform.
Proof.
  intros lo hi g Hle.
  unfold faker_number_int, Reference.platform, Reference.int. cbn [fst].
  destruct (Z.leb_spec lo hi) as [_ | Hgt]; [| lia].
  pose proof (Z.mod_pos_bound (Z.of_N (g / 65536)) (hi - lo + 1)). lia.
Qed.

Lemma Reference_dates : @dates_are_calendar Reference.platform.
Proof.
  intros from to g.
  unfold calendar_date, faker_date_between, Reference.platform, Reference.between.
  cbn [fst getFullYear getMonth getDate].
  assert (Hy : ((g / 65536) mod 8 < 8)%N) by (apply N.mod_lt; discriminate).
  assert (Hm : ((Reference.next g / 65536) mod 12 < 12)%N)
    by (apply N.mod_lt; discriminate).
  assert (Hd : ((Reference.next (Reference.next g) / 65536) mod 28 < 28)%N)
    by (apply N.mod_lt; discriminate).
  revert Hy Hm Hd.
  generalize ((g / 65536) mod 8)%N,
             ((Reference.next g / 65536) mod 12)%N,
             ((Reference.next (Reference.next g) / 65536) mod 28)%N.
  intros y m d. lia.
Qed.

Lemma genValue_contract_witness :
  (forall tag g, exists v g', @genValue Reference.platform (Str tag) g = (Ok v, g')) /\
  (forall g, exists n g',
     @genValue Reference.platform (Str "number") g = (Ok (Number (ofInt n)), g')
     /\ 0 <= n <= 9999) /\
  (forall g, exists t g',
     @genValue Reference.platform (Str "date:YYYY-MM-DD") g = (Ok (Str t), g')
     /\ datePattern "-" t = true) /\
  (forall g, exists t g',
     @genValue Reference.platform (Str "date:YYYY/MM/DD") g = (Ok (Str t), g')
     /\ datePattern "/" t = true) /\
  (forall tag g, recognized tag = false ->
     @genValue Reference.platform (Str tag) g = (Ok Null, g)).
Proof.
  apply (@genValue_contract Reference.platform).
  - exact Reference_number_int.
  - exact Reference_dates.
Defined.

(** *** parseSchema *)

Section Program.
Context `{P : Platform}.

(** The outcome of [parseSchema], by the parsed value: an object or an
    array is returned as it was parsed, any other value is refused, and
    an exception of [JSON.parse] passes through. *)
Lemma parseSchema_outcome (txt : string) :
  parseSchema txt =
    match JSON_parse txt with
    | Ok (Obj props) => Ok (Obj props)
    | Ok (Arr items) => Ok (Arr items)
    | Ok _ => Throw (Error msg_schema_object)
    | Throw e => Throw e
    end.
Proof.
  unfold parseSchema.
  destruct (JSON_parse txt) as [[| | b | n | s | items | props] | e]; simpl;
    try reflexivity.
  - destruct b; reflexivity.
  - destruct n as [| | | q]; try reflexivity. destruct (Qeq_bool q 0); reflexivity.
  - destruct (String.eqb s ""); reflexivity.
Qed.

(** C1, on arrays: a text that [JSON.parse] reads as an array is not
    refused by [parseSchema]; the array is returned as the schema. *)
Theorem parseSchema_accepts_array (txt : string) (items : list Val) :
  JSON_parse txt = Ok (Arr items) ->
  parseSchema txt = Ok (Arr items).
Proof.
  intros H. rewrite parseSchema_outcome, H. reflexivity.
Qed.

(** On success the schema is the parsed object itself, fields and order
    untouched. *)
Lemma parseSchema_returns_parsed (txt : string) (schema : Val) :
  parseSchema txt = Ok schema ->
  JSON_parse txt = Ok schema /\ typeof schema = "object" /\ truthy schema = true.
Proof.
  rewrite parseSchema_outcome.
  destruct (JSON_parse txt) as [[| | b | n | s | items | props] | e];
    intros H; try discriminate; injection H as <-; repeat split.
Qed.

(** *** onOpenApiUpload *)

(** C8. When the reducer throws on the uploaded document, the schema
    text after the upload is the schema text before it; the only field
    written is the error, with the label in front of the message. *)
Theorem onOpenApiUpload_failure_keeps_schemaText
        (f : File) (st : State) (doc : Val) (e : Exn) :
  (if isYamlName (name f) then yaml_load (text f) else JSON_parse (text f)) = Ok doc ->
  openApiToSchema doc = Throw e ->
  schemaText (onOpenApiUpload (Some f) st) = schemaText st /\
  error (onOpenApiUpload (Some f) st) = label_openapi ++ message e /\
  result (onOpenApiUpload (Some f) st) = result st.
Proof.
  intros Hdoc He. unfold onOpenApiUpload, convert.
  rewrite Hdoc. simpl rbind. rewrite He. simpl. auto.
Qed.

(** *** mswText *)

Lemma append_assoc (a b c : string) : (a ++ b) ++ c = a ++ (b ++ c).
Proof. induction a as [| x a IH]; simpl; [reflexivity | rewrite IH; reflexivity]. Qed.

Lemma toLowerCase_method (m : HttpMethod) : toLowerCase (methodText m) = lowerMethod m.
Proof. destruct m; reflexivity. Qed.

Lemma mswText_placeholder (st : State) :
  result st = None -> mswText st = msg_placeholder.
Proof. unfold mswText. intros ->. reflexivity. Qed.

Lemma mswText_handler (st : State) (recs : list Val) :
  result st = Some recs ->
  mswText st =
    handlerHead (lowerMethod (method st))
                (if String.eqb (endpoint st) "" then "/" else endpoint st)
      ++ JSON_stringify (Arr recs) ++ handlerTail.
Proof.
  unfold mswText, handlerHead, handlerTail. intros ->.
  rewrite toLowerCase_method.
  rewrite !append_assoc. reflexivity.
Qed.

End Program.

Lemma parseSchema_accepts_array_witness :
  @parseSchema Reference.platform "[1,2,3]"
  = Ok (Arr [Number (ofInt 1); Number (ofInt 2); Number (ofInt 3)]).
Proof.
  apply (@parseSchema_accepts_array Reference.platform "[1,2,3]").
  vm_compute. reflexivity.
Defined.

Lemma onOpenApiUpload_failure_keeps_schemaText_witness :
  schemaText (@onOpenApiUpload Reference.platform
                (Some {| name := "api.json"; text := "{}" |}) initial)
    = schemaText initial /\
  error (@onOpenApiUpload Reference.platform
           (Some {| name := "api.json"; text := "{}" |}) initial)
    = label_openapi ++ message (Error msg_paths) /\
  result (@onOpenApiUpload Reference.platform
            (Some {| name := "api.json"; text := "{}" |}) initial)
    = result initial.
Proof.
  apply (@onOpenApiUpload_failure_keeps_schemaText Reference.platform
           {| name := "api.json"; text := "{}" |} initial (Obj [])).
  - vm_compute. reflexivity.
  - vm_compute. reflexivity.
Defined.

(** *** The count *)

Lemma Qle_bool_false (a b : Q) : Qle_bool a b = false -> (b < a)%Q.
Proof.
  intros H. apply Qnot_le_lt. rewrite <- Qle_bool_iff. congruence.
Qed.

(** [Math.max(1, Math.min(10000, x || 1))], by the position of [x]. *)
Lemma clamp_cases (x : Num) :
  let n := Math_max (ofInt 1) (Math_min (ofInt 10000) (orElse x (ofInt 1))) in
  match x with
  | NaN | NegInf => n = ofInt 1
  | PosInf => n = ofInt 10000
  | Fin q =>
      if Qeq_bool q 0 then n = ofInt 1
      else if Qle_bool (inject_Z 10000) q then n = ofInt 10000
      else if Qle_bool (inject_Z 1) q then n = Fin q
      else n = ofInt 1
  end.
Proof.
  destruct x as [| | | q]; try reflexivity.
  unfold orElse, truthy.
  destruct (Qeq_bool q 0); simpl negb; cbv iota; [reflexivity |].
  unfold Math_min, Math_max, ofInt, Num_leb.
  destruct (Qle_bool (inject_Z 10000) q); [reflexivity |].
  destruct (Qle_bool (inject_Z 1) q); reflexivity.
Qed.

Lemma clamp_not_a_number : 
  Math_max (ofInt 1) (Math_min (ofInt 10000) (orElse NaN (ofInt 1))) = ofInt 1.
Proof. reflexivity. Qed.

Lemma clamp_below (x : Num) :
  belowRange x ->
  Math_max (ofInt 1) (Math_min (ofInt 10000) (orElse x (ofInt 1))) = ofInt 1.
Proof.
  pose proof (clamp_cases x) as H. cbv zeta in H.
  destruct x as [| | | q]; simpl; intros Hx; try contradiction; try exact H.
  destruct (Qeq_bool q 0); [exact H |].
  destruct (Qle_bool (inject_Z 10000) q) eqn:E1.
  { apply Qle_bool_iff in E1. unfold inject_Z in E1. lra. }
  destruct (Qle_bool (inject_Z 1) q) eqn:E2; [| exact H].
  apply Qle_bool_iff in E2. unfold inject_Z in E2. lra.
Qed.

Lemma clamp_above (x : Num) :
  aboveRange x ->
  Math_max (ofInt 1) (Math_min (ofInt 10000) (orElse x (ofInt 1))) = ofInt 10000.
Proof.
  pose proof (clamp_cases x) as H. cbv zeta in H.
  destruct x as [| | | q]; simpl; intros Hx; try contradiction; try exact H.
  destruct (Qeq_bool q 0) eqn:E0.
  { apply Qeq_bool_iff in E0. lra. }
  destruct (Qle_bool (inject_Z 10000) q) eqn:E1; [exact H |].
  apply Qle_bool_false in E1. unfold inject_Z in E1. lra.
Qed.

(** Within the range the count is kept, and [Array.from] truncates it. *)
Lemma clamp_within (q : Q) :
  (1 <= q <= 10000)%Q ->
  exists q', Math_max (ofInt 1) (Math_min (ofInt 10000) (orElse (Fin q) (ofInt 1)))
             = Fin q' /\ (q' == q)%Q.
Proof.
  intros Hq. pose proof (clamp_cases (Fin q)) as H. cbv zeta beta iota in H.
  destruct (Qeq_bool q 0) eqn:E0.
  { apply Qeq_bool_iff in E0. lra. }
  destruct (Qle_bool (inject_Z 10000) q) eqn:E1.
  { apply Qle_bool_iff in E1. unfold inject_Z in E1.
    exists (inject_Z 10000). split; [exact H |]. unfold inject_Z. lra. }
  destruct (Qle_bool (inject_Z 1) q) eqn:E2.
  { exists q. split; [exact H | reflexivity]. }
  apply Qle_bool_false in E2. unfold inject_Z in E2. lra.
Qed.

(** The clamped count always lies in the range. *)
Lemma clamp_in_range (x : Num) :
  exists q, Math_max (ofInt 1) (Math_min (ofInt 10000) (orElse x (ofInt 1))) = Fin q
            /\ (1 <= q <= 10000)%Q.
Proof.
  pose proof (clamp_cases x) as H. cbv zeta in H.
  destruct x as [| | | q];
    try (eexists; split; [exact H | unfold inject_Z; lra]).
  destruct (Qeq_bool q 0); [eexists; split; [exact H | unfold inject_Z; lra] |].
  destruct (Qle_bool (inject_Z 10000) q) eqn:E1;
    [eexists; split; [exact H | unfold inject_Z; lra] |].
  destruct (Qle_bool (inject_Z 1) q) eqn:E2;
    [| eexists; split; [exact H | unfold inject_Z; lra]].
  apply Qle_bool_iff in E2. apply Qle_bool_false in E1.
  unfold inject_Z in *. exists q. split; [exact H | lra].
Qed.

Lemma ToLength_in_range (q : Q) :
  (1 <= q <= 10000)%Q -> ToLength (Fin q) = Qfloor q /\ 1 <= Qfloor q <= 10000.
Proof.
  intros [Hlo Hhi].
  assert (H1 : 1 <= Qfloor q).
  { rewrite <- (Qfloor_Z 1). apply Qfloor_resp_le. exact Hlo. }
  assert (H2 : Qfloor q <= 10000).
  { rewrite <- (Qfloor_Z 10000). apply Qfloor_resp_le. exact Hhi. }
  split; [| lia].
  unfold ToLength.
  assert (10000 < 2 ^ 53 - 1) by (vm_compute; reflexivity). lia.
Qed.

(** *** buildRecord and onGenerate *)

Lemma keys_put (props : list (string * Val)) (k : string) (v : Val) :
  keys (put props k v) =
    if existsb (fun k' => String.eqb k' k) (keys props) then keys props
    else (keys props ++ [k])%list.
Proof.
  induction props as [| [k' v'] t IH]; simpl; [reflexivity |].
  destruct (String.eqb k' k); simpl; [reflexivity |].
  fold (keys (put t k v)). fold (keys t). rewrite IH.
  destruct (existsb (fun k'0 => String.eqb k'0 k) (keys t)); reflexivity.
Qed.

Lemma keys_assign (props : list (string * Val)) (k : string) (v : Val) :
  keys (assign props k v) = assignKey (keys props) k.
Proof.
  unfold assign, assignKey.
  destruct (String.eqb k "__proto__"); [reflexivity | apply keys_put].
Qed.

Lemma flat_In (props : list (string * Val)) (k : string) (v : Val) :
  flat props = true -> In (k, v) props -> exists s, v = Str s.
Proof.
  unfold flat. rewrite forallb_forall. intros H Hin.
  specialize (H _ Hin). simpl in H. destruct v; try discriminate. eauto.
Qed.

Lemma flat_ownProps (props : list (string * Val)) :
  flat props = true -> flat (ownProps props) = true.
Proof.
  unfold flat. rewrite !forallb_forall. intros H e He. apply H, In_ownProps, He.
Qed.

Section Records.
Context `{P : Platform}.

Lemma times_spec {A : Type} (f : M A) (Q : A -> Prop) :
  (forall g, exists a g', f g = (Ok a, g') /\ Q a) ->
  forall (n : nat) (g : Rng),
    exists l g', times n f g = (Ok l, g') /\ List.length l = n /\ Forall Q l.
Proof.
  intros Hf. induction n as [| n IH]; intros g; simpl.
  - exists [], g. repeat split. constructor.
  - destruct (Hf g) as (a & g1 & Ha & HQ).
    destruct (IH g1) as (l & g2 & Hl & Hlen & HF).
    exists (a :: l), g2.
    rewrite (bind_Ok _ _ _ _ _ Ha), (bind_Ok _ _ _ _ _ Hl).
    repeat split; simpl; [congruence | constructor; assumption].
Qed.

(** On a flat list of entries the loop of [buildRecord] ends without an
    exception, and the keys of the record are those the assignments
    create. *)
Lemma fillRecord_flat (entries : list (string * Val)) :
  flat entries = true ->
  forall (rec : list (string * Val)) (g : Rng),
    exists rec' g',
      fillRecord entries rec g = (Ok rec', g') /\
      keys rec' = fold_left assignKey (keys entries) (keys rec).
Proof.
  induction entries as [| [k t] rest IH]; intros Hflat rec g; simpl.
  - unfold ret. eauto.
  - simpl in Hflat. apply andb_prop in Hflat as [Ht Hrest].
    destruct t as [| | | | tag | |]; try discriminate.
    destruct (genValue_total tag g) as (v & g1 & Hv).
    rewrite (bind_Ok _ _ _ _ _ Hv).
    destruct (IH Hrest (assign rec k v) g1) as (rec' & g' & Hr & Hk).
    exists rec', g'. split; [exact Hr |].
    rewrite Hk, keys_assign. reflexivity.
Qed.

Lemma buildRecord_flat (props : list (string * Val)) (g : Rng) :
  flat props = true ->
  exists rec g',
    buildRecord (Obj props) g = (Ok (Obj rec), g') /\ keys rec = recordKeys props.
Proof.
  intros Hflat. unfold buildRecord, lift. simpl Object_entries. unfold bind at 1.
  destruct (fillRecord_flat _ (flat_ownProps _ Hflat) [] g) as (rec & g' & Hr & Hk).
  rewrite (bind_Ok _ _ _ _ _ Hr). unfold ret. exists rec, g'. split; [reflexivity | exact Hk].
Qed.

(** With a schema text that parses to a flat object, [onGenerate] stores
    as many records as the clamped count truncates to, each with the keys
    of [recordKeys], and no error. *)
Lemma onGenerate_flat (st : State) (g : Rng) (props : list (string * Val)) :
  JSON_parse (schemaText st) = Ok (Obj props) ->
  flat props = true ->
  exists recs,
    result (fst (onGenerate st g)) = Some recs /\
    error (fst (onGenerate st g)) = "" /\
    Z.of_nat (List.length recs) = ToLength (clampCount (count st)) /\
    Forall (fun r => exists rec, r = Obj rec /\ keys rec = recordKeys props) recs.
Proof.
  intros Hparse Hflat.
  destruct (clamp_in_range (Number_ (count st))) as (q & Hq & Hrange).
  fold (clampCount (count st)) in Hq.
  destruct (ToLength_in_range q Hrange) as (Hlen & Hfloor).
  assert (Hsmall : (2 ^ 32 - 1 <? Qfloor q) = false).
  { apply Z.ltb_ge. assert (10000 < 2 ^ 32 - 1) by (vm_compute; reflexivity). lia. }
  destruct (times_spec (buildRecord (Obj props))
              (fun r => exists rec, r = Obj rec /\ keys rec = recordKeys props)
              (fun g0 => match buildRecord_flat props g0 Hflat with
                         | ex_intro _ rec (ex_intro _ g' (conj H1 H2)) =>
                             ex_intro _ (Obj rec) (ex_intro _ g'
                               (conj H1 (ex_intro _ rec (conj eq_refl H2))))
                         end)
              (Z.to_nat (Qfloor q)) g) as (recs & g' & Hrecs & Hn & Hall).
  assert (Hgen : generate st g = (Ok recs, g')).
  { unfold generate, lift, bind.
    rewrite parseSchema_outcome, Hparse.
    unfold Array_from. rewrite Hq, Hlen, Hsmall. exact Hrecs. }
  unfold onGenerate. rewrite Hgen. simpl.
  exists recs. rewrite Hq, Hlen. repeat split; [lia | exact Hall].
Qed.

End Records.

(** C3. With a schema that parses to a flat object, a count that is not
    a number, or lies outside [1, 10000], is clamped to the nearest bound:
    one record when it is NaN or below 1, ten thousand when it is above
    10000.  In particular the count 0 gives 1 record, the count 999999
    gives 10000 records, and a text that does not read as a number gives
    1 record. *)
Theorem count_is_clamped `{P : Platform}
        (st : State) (g : Rng) (props : list (string * Val)) :
  JSON_parse (schemaText st) = Ok (Obj props) ->
  flat props = true ->
  exists recs,
    result (fst (onGenerate st g)) = Some recs /\
    (Number_ (count st) = NaN \/ belowRange (Number_ (count st)) ->
       Z.of_nat (List.length recs) = 1) /\
    (aboveRange (Number_ (count st)) -> Z.of_nat (List.length recs) = 10000) /\
    (count st = CountNumber (ofInt 0) -> Z.of_nat (List.length recs) = 1) /\
    (count st = CountNumber (ofInt 999999) -> Z.of_nat (List.length recs) = 10000) /\
    (forall s, count st = CountText s -> StringToNumber s = NaN ->
       Z.of_nat (List.length recs) = 1).
Proof.
  intros Hparse Hflat.
  destruct (onGenerate_flat st g props Hparse Hflat) as (recs & Hres & _ & Hlen & _).
  exists recs. split; [exact Hres |].
  assert (Hlow : Number_ (count st) = NaN \/ belowRange (Number_ (count st)) ->
                 Z.of_nat (List.length recs) = 1).
  { intros Hx. rewrite Hlen. unfold clampCount.
    destruct Hx as [-> | Hx]; [rewrite clamp_not_a_number | rewrite (clamp_below _ Hx)];
      reflexivity. }
  assert (Hhigh : aboveRange (Number_ (count st)) ->
                  Z.of_nat (List.length recs) = 10000).
  { intros Hx. rewrite Hlen. unfold clampCount. rewrite (clamp_above _ Hx).
    vm_compute. reflexivity. }
  split; [exact Hlow |]. split; [exact Hhigh |].
  split; [| split].
  - intros Hc. apply Hlow. right. rewrite Hc. simpl. unfold inject_Z. lra.
  - intros Hc. apply Hhigh. rewrite Hc. simpl. unfold inject_Z. lra.
  - intros s Hc Hs. apply Hlow. left. rewrite Hc. simpl. exact Hs.
Qed.

(** *** The order of own properties *)

Section KeyOrder.
Context {A : Type}.

Lemma insertIndexed_Permutation (n : N) (e : string * A)
      (l : list (N * (string * A))) :
  Permutation (insertIndexed n e l) ((n, e) :: l).
Proof.
  induction l as [| [m e'] t IH]; simpl; [reflexivity |].
  destruct (N.leb n m); [reflexivity |].
  rewrite IH. apply perm_swap.
Qed.

(** [ownProps] only reorders. *)
Lemma ownProps_Permutation (props : list (string * A)) :
  Permutation (ownProps props) props.
Proof.
  unfold ownProps, named.
  induction props as [| [k v] t IH]; simpl; [reflexivity |].
  destruct (arrayIndex k) as [n |]; simpl.
  - rewrite insertIndexed_Permutation. simpl. constructor. exact IH.
  - rewrite <- Permutation_middle. constructor. exact IH.
Qed.

Lemma insertIndexed_Sorted (n : N) (e : string * A) (l : list (N * (string * A))) :
  Sorted byIndex l -> Sorted byIndex (insertIndexed n e l).
Proof.
  induction 1 as [| [m e'] t Ht IH Hd]; simpl.
  - repeat constructor.
  - destruct (N.leb_spec n m) as [Hle | Hgt].
    + constructor; [constructor; assumption | constructor; exact Hle].
    + constructor; [exact IH |].
      destruct t as [| [m' e''] t']; simpl.
      * constructor. unfold byIndex; simpl. lia.
      * destruct (N.leb_spec n m'); constructor; unfold byIndex; simpl; [lia |].
        inversion Hd; assumption.
Qed.

Lemma indexed_Sorted (props : list (string * A)) : Sorted byIndex (indexed props).
Proof.
  induction props as [| [k v] t IH]; simpl; [constructor |].
  destruct (arrayIndex k); [apply insertIndexed_Sorted, IH | exact IH].
Qed.

Lemma indexed_tagged (props : list (string * A)) : Forall tagged (indexed props).
Proof.
  induction props as [| [k v] t IH]; simpl; [constructor |].
  destruct (arrayIndex k) as [n |] eqn:Hk; [| exact IH].
  rewrite Forall_forall in IH |- *. intros x Hx.
  apply In_insertIndexed in Hx as [-> | Hx]; [exact Hk | apply IH, Hx].
Qed.

Lemma named_isNamed (props : list (string * A)) : Forall isNamed (named props).
Proof.
  unfold named. rewrite Forall_forall. intros e He.
  apply filter_In in He as [_ He]. unfold isNamed.
  destruct (arrayIndex (fst e)); [discriminate | reflexivity].
Qed.

Lemma indexed_of_named (rest : list (string * A)) :
  Forall isNamed rest -> indexed rest = [] /\ named rest = rest.
Proof.
  unfold named.
  induction 1 as [| [k v] t Hk _ [IH1 IH2]]; simpl; [split; reflexivity |].
  unfold isNamed in Hk. simpl in Hk. rewrite Hk. split; [exact IH1 | f_equal; exact IH2].
Qed.

(** Sorting again what is sorted changes nothing. *)
Lemma indexed_of_sorted (l : list (N * (string * A))) (rest : list (string * A)) :
  Sorted byIndex l -> Forall tagged l -> Forall isNamed rest ->
  indexed (map snd l ++ rest) = l /\ named (map snd l ++ rest) = rest.
Proof.
  intros Hs Ht Hr. induction Hs as [| [n [k v]] t Hst IH Hd]; simpl.
  - apply indexed_of_named, Hr.
  - inversion Ht as [| ? ? Hx Ht']; subst.
    destruct (IH Ht') as [IH1 IH2].
    unfold tagged in Hx. simpl in Hx.
    unfold named in *. simpl. rewrite Hx, IH1. split; [| exact IH2].
    destruct t as [| [m e'] t']; simpl; [reflexivity |].
    inversion Hd as [| ? ? Hle]; subst. unfold byIndex in Hle. simpl in Hle.
    destruct (N.leb_spec n m); [reflexivity | lia].
Qed.

Lemma ownProps_idempotent (props : list (string * A)) :
  ownProps (ownProps props) = ownProps props.
Proof.
  unfold ownProps at 1 3.
  destruct (indexed_of_sorted (indexed props) (named props)
              (indexed_Sorted props) (indexed_tagged props) (named_isNamed props))
    as [H1 H2].
  unfold ownProps. rewrite H1, H2. reflexivity.
Qed.

End KeyOrder.

(** The order depends on the keys alone. *)
Lemma indexed_map {A B : Type} (f : A -> B) (props : list (string * A)) :
  indexed (map (fun e => (fst e, f (snd e))) props)
  = map (fun x => (fst x, (fst (snd x), f (snd (snd x))))) (indexed props).
Proof.
  induction props as [| [k v] t IH]; simpl; [reflexivity |].
  destruct (arrayIndex k) as [n |]; [| exact IH].
  rewrite IH. generalize (indexed t). intros l.
  induction l as [| [m e'] l IHl]; simpl; [reflexivity |].
  destruct (N.leb n m); simpl; [reflexivity | rewrite IHl; reflexivity].
Qed.

Lemma ownProps_map {A B : Type} (f : A -> B) (props : list (string * A)) :
  ownProps (map (fun e => (fst e, f (snd e))) props)
  = map (fun e => (fst e, f (snd e))) (ownProps props).
Proof.
  unfold ownProps, named. rewrite indexed_map, map_app, !map_map. f_equal.
  induction props as [| [k v] t IH]; simpl; [reflexivity |].
  destruct (arrayIndex k); simpl; [exact IH | f_equal; exact IH].
Qed.

Lemma ownProps_keys {A B : Type} (l : list (string * A)) (l' : list (string * B)) :
  map fst l = map fst l' -> map fst (ownProps l) = map fst (ownProps l').
Proof.
  intros H.
  assert (E : map (fun e => (fst e, tt)) l = map (fun e => (fst e, tt)) l').
  { rewrite <- (map_map fst (fun k => (k, tt)) l),
            <- (map_map fst (fun k => (k, tt)) l'), H. reflexivity. }
  pose proof (ownProps_map (fun _ => tt) l) as H1.
  pose proof (ownProps_map (fun _ => tt) l') as H2.
  cbv beta in H1, H2. rewrite E in H1. rewrite H1 in H2.
  apply (f_equal (map fst)) in H2. rewrite !map_map in H2. exact H2.
Qed.

(** *** Records and the fields of the schema *)

Lemma existsb_eqb_false (ks : list string) (k : string) :
  ~ In k ks -> existsb (fun k' => String.eqb k' k) ks = false.
Proof.
  intros H. apply not_true_is_false. intros E.
  apply existsb_exists in E as (k' & Hin & Heq).
  apply String.eqb_eq in Heq. subst k'. exact (H Hin).
Qed.

Lemma fold_assignKey (ks acc : list string) :
  NoDup (acc ++ ks) -> ~ In "__proto__" ks ->
  fold_left assignKey ks acc = (acc ++ ks)%list.
Proof.
  revert acc. induction ks as [| k ks IH]; intros acc Hnd Hp; simpl.
  - rewrite app_nil_r. reflexivity.
  - assert (Hk : ~ In k acc).
    { intros Hin. apply NoDup_remove_2 in Hnd. apply Hnd.
      apply in_or_app. left. exact Hin. }
    unfold assignKey at 2.
    destruct (String.eqb_spec k "__proto__") as [-> | _]; [exfalso; apply Hp; left; reflexivity |].
    rewrite (existsb_eqb_false _ _ Hk).
    rewrite IH.
    + rewrite <- app_assoc. reflexivity.
    + rewrite <- app_assoc. exact Hnd.
    + intros Hin. apply Hp. right. exact Hin.
Qed.

(** Without a field named [__proto__], a record gets the fields of the
    schema, and [Object.keys] lists them in the order of the schema. *)
Lemma recordKeys_schema (props : list (string * Val)) :
  NoDup (keys props) -> ~ In "__proto__" (keys props) ->
  recordKeys props = keys (ownProps props).
Proof.
  intros Hnd Hp. unfold recordKeys.
  pose proof (Permutation_map fst (ownProps_Permutation props)) as Hperm.
  fold (keys (ownProps props)) in Hperm. fold (keys props) in Hperm.
  apply fold_assignKey.
  - simpl. apply (Permutation_NoDup (Permutation_sym Hperm)), Hnd.
  - intros Hin. apply Hp. apply (Permutation_in _ Hperm), Hin.
Qed.

Lemma Object_keys_record (props rec : list (string * Val)) :
  keys rec = keys (ownProps props) ->
  Object_keys (Obj rec) = Object_keys (Obj props).
Proof.
  intros H. unfold Object_keys. simpl. f_equal.
  rewrite (ownProps_keys rec (ownProps props) H), ownProps_idempotent. reflexivity.
Qed.

Lemma keys_nil (rec : list (string * Val)) : keys rec = [] -> rec = [].
Proof. destruct rec; [reflexivity | discriminate]. Qed.

Section Generation.
Context `{P : Platform}.

(** For a flat schema with distinct field names, none of them
    [__proto__], and a whole count [n] in [1, 10000], [onGenerate] stores
    exactly [n] records, and [Object.keys] of each record is
    [Object.keys] of the schema. *)
Lemma onGenerate_records (st : State) (g : Rng) (props : list (string * Val)) (n : Z) :
  JSON_parse (schemaText st) = Ok (Obj props) ->
  flat props = true ->
  NoDup (keys props) ->
  ~ In "__proto__" (keys props) ->
  count st = CountNumber (ofInt n) ->
  1 <= n <= 10000 ->
  exists recs,
    result (fst (onGenerate st g)) = Some recs /\
    Z.of_nat (List.length recs) = n /\
    Forall (fun r => Object_keys r = Object_keys (Obj props)) recs.
Proof.
  intros Hparse Hflat Hnd Hp Hc Hn.
  destruct (onGenerate_flat st g props Hparse Hflat) as (recs & Hres & _ & Hlen & Hall).
  exists recs. split; [exact Hres |]. split.
  - rewrite Hlen, Hc. unfold clampCount. simpl Number_.
    assert (Hq : (1 <= inject_Z n <= 10000)%Q).
    { split.
      - change 1%Q with (inject_Z 1). rewrite <- Zle_Qle. lia.
      - change 10000%Q with (inject_Z 10000). rewrite <- Zle_Qle. lia. }
    destruct (clamp_within _ Hq) as (q' & Hq' & Heq).
    unfold ofInt at 3. rewrite Hq'.
    assert (Hq'' : (1 <= q' <= 10000)%Q) by (rewrite Heq; exact Hq).
    destruct (ToLength_in_range q' Hq'') as [-> _].
    rewrite Heq. apply Qfloor_Z.
  - rewrite Forall_forall in Hall |- *. intros r Hr.
    destruct (Hall r Hr) as (rec & -> & Hk).
    apply Object_keys_record. rewrite Hk. apply recordKeys_schema; assumption.
Qed.

(** C2, on the field name [__proto__]: for the schema whose one field is
    [__proto__] and the count 1, the record that [onGenerate] stores has
    no field at all, while [Object.keys] of the schema is that one name. *)
Theorem onGenerate_drops_proto (st : State) (g : Rng) :
  JSON_parse (schemaText st) = Ok protoSchema ->
  count st = CountNumber (ofInt 1) ->
  result (fst (onGenerate st g)) = Some [Obj []] /\
  Object_keys protoSchema = Ok ["__proto__"] /\
  Object_keys (Obj []) = Ok [].
Proof.
  intros Hparse Hc.
  destruct (onGenerate_flat st g _ Hparse eq_refl) as (recs & Hres & _ & Hlen & Hall).
  rewrite Hc in Hlen.
  change (ToLength (clampCount (CountNumber (ofInt 1)))) with 1 in Hlen.
  split; [| split; reflexivity].
  rewrite Hres. f_equal.
  destruct recs as [| r [| r' recs]]; simpl in Hlen; try lia.
  inversion Hall as [| ? ? (rec & -> & Hk) _]; subst.
  change (recordKeys [("__proto__", Str "uuid")]) with (@nil string) in Hk.
  rewrite (keys_nil _ Hk). reflexivity.
Qed.

(** C9. [mswText] is a total function of the state.  Before any
    generation it is the placeholder comment.  With a record sequence it
    is the handler text: the method in lower case and the endpoint, "/"
    when the endpoint is empty, in the registration, and the serialized
    sequence as the argument of [ctx.json].  After generating from the
    schema with the one field m and the count 3, the sequence it embeds
    has exactly three objects, each with the one key m. *)
Theorem mswText_renders (st0 st : State) (g : Rng) :
  result st0 = None ->
  JSON_parse (schemaText st) = Ok (Obj [("m", Str "string")]) ->
  count st = CountNumber (ofInt 3) ->
  mswText st0 = msg_placeholder /\
  (forall s recs, result s = Some recs ->
     mswText s =
       handlerHead (lowerMethod (method s))
                   (if String.eqb (endpoint s) "" then "/" else endpoint s)
         ++ JSON_stringify (Arr recs) ++ handlerTail) /\
  exists r1 r2 r3,
    result (fst (onGenerate st g)) = Some [Obj r1; Obj r2; Obj r3] /\
    keys r1 = ["m"] /\ keys r2 = ["m"] /\ keys r3 = ["m"] /\
    mswText (fst (onGenerate st g)) =
      handlerHead (lowerMethod (method st))
                  (if String.eqb (endpoint st) "" then "/" else endpoint st)
        ++ JSON_stringify (Arr [Obj r1; Obj r2; Obj r3]) ++ handlerTail.
Proof.
  intros Hnone Hparse Hc.
  split; [apply mswText_placeholder, Hnone |].
  split; [intros s recs; apply mswText_handler |].
  destruct (onGenerate_flat st g _ Hparse eq_refl) as (recs & Hres & _ & Hlen & Hall).
  rewrite Hc in Hlen.
  change (ToLength (clampCount (CountNumber (ofInt 3)))) with 3 in Hlen.
  destruct recs as [| a [| b [| c [| d recs]]]]; simpl in Hlen; try lia.
  inversion Hall as [| ? ? (r1 & -> & H1) Hall1]; subst.
  inversion Hall1 as [| ? ? (r2 & -> & H2) Hall2]; subst.
  inversion Hall2 as [| ? ? (r3 & -> & H3) _]; subst.
  exists r1, r2, r3. split; [exact Hres |].
  repeat (split; [assumption |]).
  rewrite (mswText_handler _ _ Hres).
  unfold onGenerate. destruct (generate st g) as [[recs' | e] g']; reflexivity.
Qed.

End Generation.

(** *** Runs on the reference platform *)

Lemma onGenerate_drops_proto_witness :
  result (fst (@onGenerate Reference.platform
                 (withInput protoSchemaText (CountNumber (ofInt 1)) initial) 42%N))
    = Some [Obj []] /\
  Object_keys protoSchema = Ok ["__proto__"] /\
  Object_keys (Obj []) = Ok [].
Proof.
  apply (@onGenerate_drops_proto Reference.platform
           (withInput protoSchemaText (CountNumber (ofInt 1)) initial) 42%N).
  - vm_compute. reflexivity.
  - reflexivity.
Defined.

Lemma count_is_clamped_witness :
  exists recs,
    result (fst (@onGenerate Reference.platform
                   (withInput mSchemaText (CountText "abc") initial) 42%N))
      = Some recs /\
    (@Number_ Reference.platform (CountText "abc") = NaN
     \/ belowRange (@Number_ Reference.platform (CountText "abc")) ->
       Z.of_nat (List.length recs) = 1) /\
    (aboveRange (@Number_ Reference.platform (CountText "abc")) ->
       Z.of_nat (List.length recs) = 10000) /\
    (CountText "abc" = CountNumber (ofInt 0) -> Z.of_nat (List.length recs) = 1) /\
    (CountText "abc" = CountNumber (ofInt 999999) ->
       Z.of_nat (List.length recs) = 10000) /\
    (forall s, CountText "abc" = CountText s ->
       @StringToNumber Reference.platform s = NaN ->
       Z.of_nat (List.length recs) = 1).
Proof.
  apply (@count_is_clamped Reference.platform
           (withInput mSchemaText (CountText "abc") initial) 42%N
           [("m", Str "string")]).
  - vm_compute. reflexivity.
  - reflexivity.
Defined.

Lemma mswText_renders_witness :
  @mswText Reference.platform initial = msg_placeholder /\
  (forall s recs, result s = Some recs ->
     @mswText Reference.platform s =
       handlerHead (lowerMethod (method s))
                   (if String.eqb (endpoint s) "" then "/" else endpoint s)
         ++ Reference.stringify (Arr recs) ++ handlerTail) /\
  exists r1 r2 r3,
    result (fst (@onGenerate Reference.platform
                   (withInput mSchemaText (CountNumber (ofInt 3)) initial) 42%N))
      = Some [Obj r1; Obj r2; Obj r3] /\
    keys r1 = ["m"] /\ keys r2 = ["m"] /\ keys r3 = ["m"] /\
    @mswText Reference.platform
       (fst (@onGenerate Reference.platform
               (withInput mSchemaText (CountNumber (ofInt 3)) initial) 42%N))
    = handlerHead "get" "/users"
        ++ Reference.stringify (Arr [Obj r1; Obj r2; Obj r3]) ++ handlerTail.
Proof.
  apply (@mswText_renders Reference.platform initial
           (withInput mSchemaText (CountNumber (ofInt 3)) initial) 42%N).
  - reflexivity.
  - vm_compute. reflexivity.
  - reflexivity.
Defined.

(** The same run, computed: three records with the one field m, and a
    handler text whose embedded data reads back as those records. *)
Example mswText_reference_run :
  let st := fst (@onGenerate Reference.platform
                   (withInput mSchemaText (CountNumber (ofInt 3)) initial) 42%N) in
  result st = Some [Obj [("m", Str "Ada Hopper")];
                    Obj [("m", Str "Edsger Liskov")];
                    Obj [("m", Str "Grace Hopper")]] /\
  includes (@mswText Reference.platform st) "rest.get('/users', (req, res, ctx) => {" = true /\
  Reference.parse (@prettyResult Reference.platform st)
    = Ok (Arr [Obj [("m", Str "Ada Hopper")];
               Obj [("m", Str "Edsger Liskov")];
               Obj [("m", Str "Grace Hopper")]]).
Proof. vm_compute. repeat split. Qed.

(** ** Further properties of the program *)

(** *** File names of the exports *)

Lemma allChars_app (p : ascii -> bool) (a b : string) :
  allChars p (a ++ b) = andb (allChars p a) (allChars p b).
Proof.
  induction a as [| c a IH]; simpl; [reflexivity |].
  rewrite IH, andb_assoc. reflexivity.
Qed.

Lemma allChars_weaken (p q : ascii -> bool) (s : string) :
  (forall c, p c = true -> q c = true) ->
  allChars p s = true -> allChars q s = true.
Proof.
  intros Hpq. induction s as [| c s IH]; simpl; [reflexivity |].
  intros H. apply andb_prop in H as [Hc Hs].
  rewrite (Hpq _ Hc), (IH Hs). reflexivity.
Qed.

Lemma replaceRuns_safe (inRun : bool) (s : string) :
  allChars isWordOrHyphen (replaceRuns inRun s) = true.
Proof.
  revert inRun. induction s as [| c s IH]; intros inRun; simpl; [reflexivity |].
  destruct (isWordOrHyphen c) eqn:Hc; simpl.
  - rewrite Hc, IH. reflexivity.
  - destruct inRun; simpl; rewrite ?IH; reflexivity.
Qed.

Lemma replaceRuns_fixed (inRun : bool) (s : string) :
  allChars isWordOrHyphen s = true -> replaceRuns inRun s = s.
Proof.
  revert inRun. induction s as [| c s IH]; intros inRun; simpl; [reflexivity |].
  intros H. apply andb_prop in H as [Hc Hs]. rewrite Hc, (IH _ Hs). reflexivity.
Qed.

Lemma replaceRuns_length (inRun : bool) (s : string) :
  (String.length (replaceRuns inRun s) <= String.length s)%nat.
Proof.
  revert inRun. induction s as [| c s IH]; intros inRun; simpl; [lia |].
  destruct (isWordOrHyphen c); simpl.
  - specialize (IH false). lia.
  - destruct inRun; simpl; specialize (IH true); lia.
Qed.

(** The replacement of [onDownloadJson] and [downloadMsw] leaves only
    word characters and hyphens; it changes nothing in a text that has
    only those, so applying it twice is applying it once; it never
    lengthens the text, and it leaves a text that is not empty not
    empty. *)
Theorem replaceUnsafe_normalizes (s : string) :
  allChars isWordOrHyphen (replaceUnsafe s) = true /\
  (if allChars isWordOrHyphen s then replaceUnsafe s = s else True) /\
  replaceUnsafe (replaceUnsafe s) = replaceUnsafe s /\
  (String.length (replaceUnsafe s) <= String.length s)%nat /\
  (if String.eqb s "" then True else replaceUnsafe s <> "").
Proof.
  unfold replaceUnsafe.
  split; [apply replaceRuns_safe |].
  split.
  { destruct (allChars isWordOrHyphen s) eqn:H; [apply replaceRuns_fixed, H | exact I]. }
  split; [apply replaceRuns_fixed, replaceRuns_safe |].
  split; [apply replaceRuns_length |].
  destruct s as [| c s]; simpl; [exact I |].
  destruct (isWordOrHyphen c); discriminate.
Qed.

Lemma methodText_safe (m : HttpMethod) :
  allChars isFileNameChar (methodText m) = true.
Proof. destruct m; reflexivity. Qed.

Lemma safe_is_safe (st : State) : allChars isFileNameChar (safe st) = true.
Proof.
  unfold safe, replaceUnsafe.
  apply (allChars_weaken isWordOrHyphen); [| apply replaceRuns_safe].
  intros c Hc. unfold isFileNameChar. rewrite Hc. reflexivity.
Qed.

Section Exports.
Context `{P : Platform}.

(** Whatever the endpoint, the names of the files that [onDownloadJson]
    and [downloadMsw] offer hold only ASCII letters, digits, underscores,
    hyphens and dots: no separator of a path and no space. *)
Theorem download_names_are_safe (st : State) :
  namesAreSafe (onDownloadJson st ++ downloadMsw st).
Proof.
  unfold namesAreSafe, onDownloadJson, downloadMsw, download.
  destruct (result st) as [recs |]; [| apply Forall_nil].
  apply Forall_cons; [| apply Forall_cons; [| apply Forall_nil]];
    rewrite !allChars_app, methodText_safe, safe_is_safe; reflexivity.
Qed.

(** The exports carry the previews: with a record sequence the JSON file
    holds the text of [prettyResult] and the handler file the text of
    [mswText], which is also what [copyMsw] writes; without one, neither
    download offers a file, while [copyMsw] still writes the placeholder
    comment to the clipboard.  Without a clipboard [copyMsw] writes
    nothing and alerts. *)
Theorem exports_carry_previews (st : State) :
  match result st with
  | Some _ =>
      onDownloadJson st =
        [Download (methodText (method st) ++ "_" ++ safe st ++ ".json")
                  (prettyResult st) "application/json"] /\
      downloadMsw st =
        [Download ("msw_" ++ methodText (method st) ++ "_" ++ safe st ++ ".ts")
                  (mswText st) "text/plain"]
  | None =>
      onDownloadJson st = [] /\ downloadMsw st = [] /\
      copyMsw (Some true) st = [ClipboardWrite msg_placeholder; Alert msg_copied]
  end /\
  copyMsw (Some true) st = [ClipboardWrite (mswText st); Alert msg_copied] /\
  copyMsw (Some false) st = [ClipboardWrite (mswText st)] /\
  copyMsw None st = [Alert msg_no_clipboard].
Proof.
  unfold onDownloadJson, downloadMsw, copyMsw, prettyResult, download, mswText.
  destruct (result st); repeat split.
Qed.

End Exports.

(** *** Outcomes of onGenerate *)

Section Outcomes.
Context `{P : Platform}.

Lemma bind_inv {A B : Type} (c : M A) (k : A -> M B) (g g' : Rng) (b : B) :
  bind c k g = (Ok b, g') ->
  exists a g1, c g = (Ok a, g1) /\ k a g1 = (Ok b, g').
Proof.
  unfold bind. destruct (c g) as [[a | e] g1]; intros H; [eauto | discriminate].
Qed.

Lemma times_length {A : Type} (f : M A) (n : nat) (g g' : Rng) (l : list A) :
  times n f g = (Ok l, g') -> List.length l = n.
Proof.
  revert g g' l. induction n as [| n IH]; intros g g' l; simpl.
  - unfold ret. intros H. injection H as <- _. reflexivity.
  - intros H. apply bind_inv in H as (a & g1 & _ & H).
    apply bind_inv in H as (l' & g2 & Hl & H).
    unfold ret in H. injection H as <- _. simpl. f_equal. eapply IH, Hl.
Qed.

Lemma Array_from_clamped {A : Type} (c : CountValue) (f : M A) :
  exists n : nat,
    Array_from (clampCount c) f = times n f /\
    Z.of_nat n = ToLength (clampCount c) /\ 1 <= Z.of_nat n <= 10000.
Proof.
  destruct (clamp_in_range (Number_ c)) as (q & Hq & Hrange).
  fold (clampCount c) in Hq.
  destruct (ToLength_in_range q Hrange) as (Hlen & Hfloor).
  exists (Z.to_nat (Qfloor q)). unfold Array_from. rewrite Hq, Hlen.
  assert (Hsmall : (2 ^ 32 - 1 <? Qfloor q) = false).
  { apply Z.ltb_ge. assert (10000 < 2 ^ 32 - 1) by (vm_compute; reflexivity). lia. }
  rewrite Hsmall. repeat split; lia.
Qed.

(** Whatever the state, the count and the platform, a generation that
    stores a record sequence stores between 1 and 10000 records, as many
    as the clamped count truncates to, and clears the error. *)
Theorem onGenerate_length_bounds (st : State) (g : Rng) (recs : list Val) :
  result (fst (onGenerate st g)) = Some recs ->
  1 <= Z.of_nat (List.length recs) <= 10000 /\
  Z.of_nat (List.length recs) = ToLength (clampCount (count st)) /\
  error (fst (onGenerate st g)) = "".
Proof.
  unfold onGenerate.
  destruct (generate st g) as [[recs' | e] g'] eqn:Hgen; simpl; [| discriminate].
  intros H. injection H as <-.
  unfold generate in Hgen. apply bind_inv in Hgen as (schema & g1 & _ & Hgen).
  destruct (Array_from_clamped (count st) (buildRecord schema)) as (n & Hn & Hlen & Hb).
  rewrite Hn in Hgen. apply times_length in Hgen. rewrite Hgen.
  split; [exact Hb |]. split; [exact Hlen | reflexivity].
Qed.

(** When [parseSchema] throws, on a text that is not JSON or on a value
    that is not an object, [onGenerate] draws nothing, stores the message
    of the exception and clears the result, whatever was generated
    before; the handler text is the placeholder again and the downloads
    offer no file. *)
Theorem onGenerate_parse_failure (st : State) (g : Rng) (e : Exn) :
  parseSchema (schemaText st) = Throw e ->
  onGenerate st g = (failed st e, g) /\
  mswText (fst (onGenerate st g)) = msg_placeholder /\
  prettyResult (fst (onGenerate st g)) = "" /\
  onDownloadJson (fst (onGenerate st g)) = [] /\
  downloadMsw (fst (onGenerate st g)) = [].
Proof.
  intros H.
  assert (E : onGenerate st g = (failed st e, g)).
  { unfold onGenerate, generate, lift, bind. rewrite H. reflexivity. }
  rewrite E. repeat split.
Qed.

(** A count inside the range that is not whole is truncated: with a
    schema that parses to a flat object and a count [q] with
    [1 <= q <= 10000], exactly [floor q] records are stored. *)
Theorem onGenerate_truncates_count
        (st : State) (g : Rng) (props : list (string * Val)) (q : Q) :
  JSON_parse (schemaText st) = Ok (Obj props) ->
  flat props = true ->
  count st = CountNumber (Fin q) ->
  (1 <= q <= 10000)%Q ->
  exists recs,
    result (fst (onGenerate st g)) = Some recs /\
    Z.of_nat (List.length recs) = Qfloor q.
Proof.
  intros Hparse Hflat Hc Hq.
  destruct (onGenerate_flat st g props Hparse Hflat) as (recs & Hres & _ & Hlen & _).
  exists recs. split; [exact Hres |].
  rewrite Hlen, Hc. unfold clampCount. simpl Number_.
  destruct (clamp_within _ Hq) as (q' & Hq' & Heq). rewrite Hq'.
  assert (Hq'' : (1 <= q' <= 10000)%Q) by (rewrite Heq; exact Hq).
  destruct (ToLength_in_range q' Hq'') as [-> _].
  rewrite Heq. reflexivity.
Qed.

End Outcomes.

(** *** Values and tags *)

Lemma lower_char_not_upper (c : ascii) : isUpper (lower_char c) = false.
Proof.
  unfold lower_char, isUpper.
  destruct (andb (Nat.leb 65 (nat_of_ascii c)) (Nat.leb (nat_of_ascii c) 90)) eqn:H.
  - apply andb_prop in H as [H1 H2].
    apply Nat.leb_le in H1. apply Nat.leb_le in H2.
    rewrite nat_ascii_embedding by lia.
    apply andb_false_intro2. apply Nat.leb_gt. lia.
  - exact H.
Qed.

Lemma toLowerCase_no_upper (s : string) :
  allChars (fun c => negb (isUpper c)) (toLowerCase s) = true.
Proof.
  induction s as [| c s IH]; simpl; [reflexivity |].
  rewrite lower_char_not_upper, IH. reflexivity.
Qed.

Section Values.
Context `{P : Platform}.

(** Whatever address faker returns, the value for the tag "email" is a
    string without an upper-case ASCII letter. *)
Theorem genValue_email_is_lower_case (g : Rng) :
  exists t g',
    genValue (Str "email") g = (Ok (Str t), g') /\
    allChars (fun c => negb (isUpper c)) t = true.
Proof.
  unfold genValue. simpl. rewrite bind_draw. unfold ret.
  eexists; eexists. split; [reflexivity | apply toLowerCase_no_upper].
Qed.

Lemma genValue_not_string (v : Val) (g : Rng) :
  isString v = false -> exists m, genValue v g = (Throw (TypeError m), g).
Proof.
  destruct v; simpl; try discriminate; intros _; unfold lift; simpl; eauto.
  destruct (lookup props "startsWith"); simpl; eauto.
Qed.

(** A type tag that is not a string (a number, a boolean, null, an
    array, an object) makes [genValue] throw a [TypeError], and nothing is
    drawn from the random source. *)
Theorem genValue_throws_on_non_string (v : Val) (g : Rng) :
  isString v = false -> exists m, genValue v g = (Throw (TypeError m), g).
Proof. apply genValue_not_string. Qed.

(** On a string, the value is null exactly when the tag is outside the
    vocabulary: "uuid", "string", "email", "number" and every tag that
    starts with "date:", whatever follows, give a value that is not
    null. *)
Theorem genValue_null_iff_unrecognized (tag : string) (g : Rng) :
  fst (genValue (Str tag) g) = Ok Null <-> recognized tag = false.
Proof.
  split.
  - intros H. apply not_true_is_false. intros Hrec.
    unfold recognized, basicTags in Hrec. simpl in Hrec. rewrite !orb_false_r in Hrec.
    unfold genValue in H.
    destruct (startsWith tag "date:").
    + rewrite bind_draw in H. unfold ret in H.
      repeat match type of H with
             | context [if ?b then _ else _] => destruct b
             end; simpl in H; discriminate.
    + simpl in Hrec.
      destruct (String.eqb tag "uuid");
        [rewrite bind_draw in H; simpl in H; discriminate |].
      destruct (String.eqb tag "string");
        [rewrite bind_draw in H; simpl in H; discriminate |].
      destruct (String.eqb tag "email");
        [rewrite bind_draw in H; simpl in H; discriminate |].
      destruct (String.eqb tag "number");
        [rewrite bind_draw in H; simpl in H; discriminate |].
      discriminate.
  - intros H. rewrite (genValue_unknown _ _ H). reflexivity.
Qed.

Lemma fillRecord_not_flat (entries : list (string * Val)) :
  flat entries = false ->
  forall (rec : list (string * Val)) (g : Rng),
    exists m g', fillRecord entries rec g = (Throw (TypeError m), g').
Proof.
  induction entries as [| [k t] rest IH]; simpl; [discriminate |].
  intros Hflat rec g.
  destruct (isString t) eqn:Ht.
  - simpl in Hflat. destruct t as [| | | | tag | |]; try discriminate.
    destruct (genValue_total tag g) as (v & g1 & Hv).
    rewrite (bind_Ok _ _ _ _ _ Hv). apply IH, Hflat.
  - destruct (genValue_not_string t g Ht) as (m & Hm).
    unfold bind. rewrite Hm. eauto.
Qed.

Lemma flat_ownProps_false (props : list (string * Val)) :
  flat props = false -> flat (ownProps props) = false.
Proof.
  intros H. apply not_true_is_false. intros Hown. 
  assert (Hall : flat props = true); [| congruence].
  unfold flat in *. rewrite forallb_forall in Hown |- *.
  intros e He. apply Hown.
  apply (Permutation_in _ (Permutation_sym (ownProps_Permutation props))), He.
Qed.

(** A schema object with a field whose value is not a string makes the
    whole generation fail: [onGenerate] stores no record sequence, and the
    error is the message of the [TypeError] that [genValue] threw. *)
Theorem onGenerate_rejects_non_string_tag
        (st : State) (g : Rng) (props : list (string * Val)) :
  JSON_parse (schemaText st) = Ok (Obj props) ->
  flat props = false ->
  exists m g',
    generate st g = (Throw (TypeError m), g') /\
    result (fst (onGenerate st g)) = None /\
    error (fst (onGenerate st g)) = m.
Proof.
  intros Hparse Hflat.
  destruct (fillRecord_not_flat _ (flat_ownProps_false _ Hflat) [] g) as (m & g' & Hm).
  assert (Hgen : generate st g = (Throw (TypeError m), g')).
  { unfold generate, lift. unfold bind at 1.
    rewrite parseSchema_outcome, Hparse.
    destruct (Array_from_clamped (count st) (buildRecord (Obj props)))
      as (n & -> & _ & Hn).
    destruct n as [| n]; [simpl in Hn; lia |].
    simpl. unfold bind at 1.
    unfold buildRecord, lift. simpl Object_entries. unfold bind at 1. unfold bind at 1.
    rewrite Hm. reflexivity. }
  exists m, g'. unfold onGenerate. rewrite Hgen. repeat split.
Qed.

End Values.

(** *** Outcomes of parseSchema and of the reducer *)

(** [parseSchema] by the parsed value: an exception of [JSON.parse]
    passes through unchanged; null, a boolean, a number and a string are
    refused with the message that asks for an object; an object and an
    array are returned as parsed. *)
Theorem parseSchema_by_parsed_value `{P : Platform} (txt : string) :
  match JSON_parse txt with
  | Throw e => parseSchema txt = Throw e
  | Ok v =>
      if andb (String.eqb (typeof v) "object") (negb (nullish v))
      then parseSchema txt = Ok v
      else parseSchema txt = Throw (Error msg_schema_object)
  end.
Proof.
  rewrite parseSchema_outcome.
  destruct (JSON_parse txt) as [[| | b | n | s | items | props] | e]; reflexivity.
Qed.

(** The whole outcome of [openApiToSchema]: the message of [paths] when
    the document has no truthy [paths]; the [TypeError] of [Object.keys]
    when the first path item is absent or null; the message of the schema
    when the 200 application/json schema of the first operation is absent
    or falsy; the conversion of the properties for a schema of the array
    form or, failing that, of the object form; the message of the
    unsupported shape otherwise. *)
Theorem openApiToSchema_outcome (doc : Val) :
  openApiToSchema doc =
    if negb (truthy (pathsNode doc)) then Throw (Error msg_paths)
    else if nullish (pathItem doc)
    then Throw (TypeError "Cannot convert undefined or null to object")
    else if negb (truthy (schemaNode doc)) then Throw (Error msg_schema_missing)
    else if arrayForm (schemaNode doc)
    then convertProps (optGet (optGet (schemaNode doc) "items") "properties")
    else if objectForm (schemaNode doc)
    then convertProps (optGet (schemaNode doc) "properties")
    else Throw (Error msg_unsupported).
Proof.
  destruct (truthy (pathsNode doc)) eqn:Hp; simpl.
  - apply openApiToSchema_steps, Hp.
  - apply openApiToSchema_no_paths, Hp.
Qed.

Lemma ownProps_named {A : Type} (props : list (string * A)) :
  Forall isNamed props -> ownProps props = props.
Proof.
  intros H. unfold ownProps.
  destruct (indexed_of_named props H) as [-> ->]. reflexivity.
Qed.

Lemma pathItem_first (p : string) (item : Val) (rest other : list (string * Val)) :
  Forall isNamed ((p, item) :: rest) ->
  pathItem (Obj (("paths", Obj ((p, item) :: rest)) :: other)) = item.
Proof.
  intros H. unfold pathItem, pathsNode, firstKey, Object_keys. simpl optGet.
  simpl Object_entries. rewrite (ownProps_named _ H).
  cbn [map fst first propertyKey].
  unfold optGet, get. simpl. rewrite String.eqb_refl. reflexivity.
Qed.

(** Only the first path counts: in a document whose [paths] node is an
    object whose path names are none of them array indices, wherever
    [paths] stands among the members of the document and whatever the
    other members are, the paths after the first do not change what the
    reducer returns: it is what it returns on the document that has the
    first path alone. *)
Theorem openApiToSchema_reads_first_path
        (doc : Val) (p : string) (item : Val) (rest : list (string * Val)) :
  pathsNode doc = Obj ((p, item) :: rest) ->
  Forall isNamed ((p, item) :: rest) ->
  openApiToSchema doc = openApiToSchema (Obj [("paths", Obj [(p, item)])]).
Proof.
  intros Hdoc H.
  assert (H1 : Forall (@isNamed Val) [(p, item)]).
  { inversion H; subst. constructor; [assumption | constructor]. }
  assert (Hitem : pathItem doc = item).
  { unfold pathItem, firstKey, Object_keys. rewrite Hdoc.
    simpl Object_entries. rewrite (ownProps_named _ H).
    cbn [map fst first propertyKey].
    unfold optGet, get. simpl. rewrite String.eqb_refl. reflexivity. }
  rewrite (openApiToSchema_steps doc) by (rewrite Hdoc; reflexivity).
  rewrite (openApiToSchema_steps (Obj [("paths", Obj [(p, item)])])) by reflexivity.
  unfold schemaNode, operation.
  rewrite Hitem, (pathItem_first p item [] [] H1).
  reflexivity.
Qed.

Lemma put_fresh {A : Type} (props : list (string * A)) (k : string) (v : A) :
  ~ In k (map fst props) -> put props k v = (props ++ [(k, v)])%list.
Proof.
  induction props as [| [k' v'] t IH]; simpl; intros H; [reflexivity |].
  destruct (String.eqb_spec k' k) as [-> | _]; [exfalso; apply H; left; reflexivity |].
  rewrite IH; [reflexivity | intros Hin; apply H; right; exact Hin].
Qed.

Lemma fillSchema_fields (entries : list (string * Val)) :
  forall r : list (string * Val),
    NoDup (keys r ++ keys entries) ->
    ~ In "__proto__" (keys entries) ->
    Forall (fun e => nullish (snd e) = false) entries ->
    fillSchema entries r = Ok (r ++ map reducedField entries)%list.
Proof.
  induction entries as [| [k v] rest IH]; intros r Hnd Hp Hv; simpl.
  - rewrite app_nil_r. reflexivity.
  - inversion Hv as [| ? ? Hk Hrest]; subst. simpl in Hk.
    rewrite !(get_not_nullish _ _ Hk). simpl rbind.
    assert (Hfresh : ~ In k (keys r)).
    { intros Hin. apply NoDup_remove_2 in Hnd. apply Hnd.
      apply in_or_app. left. exact Hin. }
    unfold assign.
    destruct (String.eqb_spec k "__proto__") as [-> | _];
      [exfalso; apply Hp; left; reflexivity |].
    rewrite (put_fresh _ _ _ Hfresh), IH.
    + rewrite <- app_assoc. reflexivity.
    + unfold keys in *. rewrite map_app, <- app_assoc. exact Hnd.
    + intros Hin. apply Hp. right. exact Hin.
    + exact Hrest.
Qed.

(** The reduced schema has the fields of the properties, in the order of
    [Object.keys], each with the tag of its [type] and [format]: this
    holds when the property names are distinct, none is [__proto__], and
    no property node is null. *)
Theorem convertProps_keeps_fields (props : list (string * Val)) :
  NoDup (keys props) ->
  ~ In "__proto__" (keys props) ->
  Forall (fun e => nullish (snd e) = false) props ->
  convertProps (Obj props) = Ok (Obj (map reducedField (ownProps props))).
Proof.
  intros Hnd Hp Hv. unfold convertProps. simpl truthy. cbv iota. simpl Object_entries.
  simpl rbind.
  pose proof (Permutation_map fst (ownProps_Permutation props)) as Hperm.
  rewrite fillSchema_fields; [reflexivity | | |].
  - simpl. apply (Permutation_NoDup (Permutation_sym Hperm)), Hnd.
  - intros Hin. apply Hp. apply (Permutation_in _ Hperm), Hin.
  - rewrite Forall_forall in Hv |- *. intros e He. apply Hv, In_ownProps, He.
Qed.

Lemma fillSchema_null (entries : list (string * Val)) :
  Exists (fun e => nullish (snd e) = true) entries ->
  forall r, exists m, fillSchema entries r = Throw (TypeError m).
Proof.
  induction entries as [| [k v] rest IH]; intros Hex r.
  - inversion Hex.
  - simpl. destruct (nullish v) eqn:Hv.
    + destruct v; try discriminate; simpl; eauto.
    + rewrite !(get_not_nullish _ _ Hv). simpl rbind.
      apply IH. inversion Hex as [? ? Hhd | ? ? Htl]; subst; [| exact Htl].
      simpl in Hhd. congruence.
Qed.

(** A null property node makes the conversion throw a [TypeError]: the
    reducer has no message of its own for it. *)
Theorem convertProps_null_property (props : list (string * Val)) :
  Exists (fun e => nullish (snd e) = true) props ->
  exists m, convertProps (Obj props) = Throw (TypeError m).
Proof.
  intros Hex. unfold convertProps. simpl truthy. cbv iota. simpl Object_entries.
  simpl rbind.
  assert (Hown : Exists (fun e => nullish (snd e) = true) (ownProps props)).
  { rewrite Exists_exists in Hex |- *. destruct Hex as (e & He & Hn).
    exists e. split; [| exact Hn].
    apply (Permutation_in _ (Permutation_sym (ownProps_Permutation props))), He. }
  destruct (fillSchema_null _ Hown []) as (m & ->). simpl. eauto.
Qed.

(** *** Uploads *)

Lemma toLowerCase_app (a b : string) :
  toLowerCase (a ++ b) = toLowerCase a ++ toLowerCase b.
Proof. induction a as [| c a IH]; simpl; [reflexivity | rewrite IH; reflexivity]. Qed.

Lemma toLowerCase_length (s : string) :
  String.length (toLowerCase s) = String.length s.
Proof. induction s as [| c s IH]; simpl; [reflexivity | rewrite IH; reflexivity]. Qed.

Lemma toLowerCase_slice (s : string) (n : nat) :
  toLowerCase (slice s n) = slice (toLowerCase s) n.
Proof.
  revert s. induction n as [| n IH]; intros s; destruct s as [| c s]; simpl;
    try reflexivity.
  apply IH.
Qed.

Lemma string_length_app (a b : string) :
  String.length (a ++ b) = (String.length a + String.length b)%nat.
Proof. induction a as [| c a IH]; simpl; [reflexivity | rewrite IH; reflexivity]. Qed.

Lemma slice_app (a b : string) : slice (a ++ b) (String.length a) = b.
Proof. induction a as [| c a IH]; simpl; [destruct b; reflexivity | exact IH]. Qed.

Lemma slice_split (s : string) (n : nat) :
  (n <= String.length s)%nat -> exists a, s = a ++ slice s n.
Proof.
  revert s. induction n as [| n IH]; intros s Hn.
  - exists "". destruct s; reflexivity.
  - destruct s as [| c s]; simpl in Hn; [lia |].
    destruct (IH s) as (a & Ha); [lia |].
    exists (String c a). simpl. rewrite <- Ha. reflexivity.
Qed.

Lemma endsWith_app (a b : string) : endsWith (a ++ b) b = true.
Proof.
  unfold endsWith. rewrite string_length_app.
  replace (String.length a + String.length b - String.length b)%nat
    with (String.length a) by lia.
  rewrite slice_app, String.eqb_refl.
  apply andb_true_intro. split; [apply Nat.leb_le; lia | reflexivity].
Qed.

Lemma endsWith_lower_split (n suffix : string) :
  endsWith (toLowerCase n) suffix = true ->
  exists base ext, n = base ++ ext /\ toLowerCase ext = suffix.
Proof.
  unfold endsWith. rewrite toLowerCase_length. intros H.
  apply andb_prop in H as [Hlen Heq].
  apply Nat.leb_le in Hlen. apply String.eqb_eq in Heq.
  destruct (slice_split n (String.length n - String.length suffix)) as (base & Hb);
    [lia |].
  exists base, (slice n (String.length n - String.length suffix)).
  split; [exact Hb |]. rewrite toLowerCase_slice. exact Heq.
Qed.

(** The YAML reader is chosen by the end of the file name alone, in any
    letter case: a name is read as YAML exactly when it ends with
    [.yaml] or [.yml], whatever the case of the letters. *)
Theorem isYamlName_by_extension (n : string) :
  isYamlName n = true <->
  exists base ext,
    n = base ++ ext /\ (toLowerCase ext = ".yaml" \/ toLowerCase ext = ".yml").
Proof.
  unfold isYamlName. split.
  - intros H. apply orb_prop in H as [H | H];
      apply endsWith_lower_split in H as (base & ext & Hn & He); eauto.
  - intros (base & ext & -> & He). rewrite toLowerCase_app.
    destruct He as [-> | ->]; rewrite endsWith_app;
      [reflexivity | apply orb_true_r].
Qed.

Section Uploads.
Context `{P : Platform}.

(** An upload writes one field.  It never touches the result, the
    endpoint, the method or the count.  When the conversion succeeds the
    schema text becomes the serialized schema and the error keeps what it
    held before; when the parser throws, the schema text is kept and the
    error is the label followed by the parser's message. *)
Theorem onOpenApiUpload_writes_one_field (file : option File) (st : State) :
  let st' := onOpenApiUpload file st in
  result st' = result st /\ endpoint st' = endpoint st /\
  method st' = method st /\ count st' = count st /\
  match file with
  | None => st' = st
  | Some f =>
      match (if isYamlName (name f) then yaml_load (text f) else JSON_parse (text f)) with
      | Throw e =>
          schemaText st' = schemaText st /\ error st' = label_openapi ++ message e
      | Ok doc =>
          match openApiToSchema doc with
          | Ok schema =>
              schemaText st' = JSON_stringify schema /\ error st' = error st
          | Throw e =>
              schemaText st' = schemaText st /\ error st' = label_openapi ++ message e
          end
      end
  end.
Proof.
  unfold onOpenApiUpload, convert.
  destruct file as [f |]; [| repeat split].
  destruct (if isYamlName (name f) then yaml_load (text f) else JSON_parse (text f))
    as [doc | e]; simpl; [| repeat split].
  destruct (openApiToSchema doc) as [schema | e]; simpl; repeat split.
Qed.

Lemma reducerTag_flat (fields : list (string * Val)) :
  Forall reducerTag fields -> flat fields = true.
Proof.
  unfold flat. rewrite forallb_forall, Forall_forall.
  intros H e He. destruct (H e He) as (tag & -> & _). reflexivity.
Qed.

(** The reducer feeds the generator: when the uploaded document reduces
    to a schema and the serialized schema parses back to it, a generation
    after the upload succeeds, whatever the count; it stores between 1
    and 10000 records and no record has a null value. *)
Theorem upload_then_generate
        (f : File) (st : State) (doc schema : Val) (g : Rng) :
  (if isYamlName (name f) then yaml_load (text f) else JSON_parse (text f)) = Ok doc ->
  openApiToSchema doc = Ok schema ->
  JSON_parse (JSON_stringify schema) = Ok schema ->
  exists recs,
    result (fst (onGenerate (onOpenApiUpload (Some f) st) g)) = Some recs /\
    error (fst (onGenerate (onOpenApiUpload (Some f) st) g)) = "" /\
    1 <= Z.of_nat (List.length recs) <= 10000 /\
    Forall noNull recs.
Proof.
  intros Hdoc Hred Hback.
  destruct (openApiToSchema_tags _ _ Hred) as (fields & -> & Htags).
  assert (Htext : schemaText (onOpenApiUpload (Some f) st) = JSON_stringify (Obj fields)).
  { unfold onOpenApiUpload, convert. rewrite Hdoc. simpl rbind. rewrite Hred.
    reflexivity. }
  set (st' := onOpenApiUpload (Some f) st) in *.
  assert (Hown : Forall reducerTag (ownProps fields)).
  { rewrite Forall_forall in Htags |- *. intros e He. apply Htags, In_ownProps, He. }
  assert (Hbuild : forall g0, exists r g', buildRecord (Obj fields) g0 = (Ok r, g') /\ noNull r).
  { intros g0. unfold buildRecord, lift. simpl Object_entries. unfold bind at 1.
    destruct (fillRecord_not_null _ Hown [] g0 (Forall_nil _)) as (rec & g' & Hr & Hnn).
    rewrite (bind_Ok _ _ _ _ _ Hr). unfold ret.
    exists (Obj rec), g'. split; [reflexivity |]. exists rec. split; [reflexivity | exact Hnn]. }
  destruct (Array_from_clamped (count st') (buildRecord (Obj fields)))
    as (n & Hn & _ & Hb).
  destruct (times_spec (buildRecord (Obj fields)) noNull Hbuild n g)
    as (recs & g' & Hrecs & Hlen & Hall).
  assert (Hgen : generate st' g = (Ok recs, g')).
  { unfold generate, lift, bind.
    rewrite parseSchema_outcome, Htext, Hback, Hn. exact Hrecs. }
  unfold onGenerate. rewrite Hgen. simpl.
  exists recs. repeat split; try exact Hall; lia.
Qed.

End Uploads.

(** *** Further runs on the reference platform *)

Lemma onGenerate_length_bounds_witness :
  1 <= Z.of_nat (List.length [Obj [("m", Str "Ada Hopper")];
                              Obj [("m", Str "Edsger Liskov")];
                              Obj [("m", Str "Grace Hopper")]]) <= 10000 /\
  Z.of_nat (List.length [Obj [("m", Str "Ada Hopper")];
                         Obj [("m", Str "Edsger Liskov")];
                         Obj [("m", Str "Grace Hopper")]])
    = ToLength (@clampCount Reference.platform (CountNumber (ofInt 3))) /\
  error (fst (@onGenerate Reference.platform
                (withInput mSchemaText (CountNumber (ofInt 3)) initial) 42%N)) = "".
Proof.
  apply (@onGenerate_length_bounds Reference.platform
           (withInput mSchemaText (CountNumber (ofInt 3)) initial) 42%N).
  vm_compute. reflexivity.
Defined.

Lemma onGenerate_parse_failure_witness :
  result notJsonState <> None /\
  (@onGenerate Reference.platform notJsonState 7%N
     = (failed notJsonState (SyntaxError "Unexpected token in JSON"), 7%N) /\
   @mswText Reference.platform (fst (@onGenerate Reference.platform notJsonState 7%N))
     = msg_placeholder /\
   @prettyResult Reference.platform
      (fst (@onGenerate Reference.platform notJsonState 7%N)) = "" /\
   @onDownloadJson Reference.platform
      (fst (@onGenerate Reference.platform notJsonState 7%N)) = [] /\
   @downloadMsw Reference.platform
      (fst (@onGenerate Reference.platform notJsonState 7%N)) = []).
Proof.
  split; [vm_compute; discriminate |].
  apply (@onGenerate_parse_failure Reference.platform notJsonState 7%N
           (SyntaxError "Unexpected token in JSON")).
  vm_compute. reflexivity.
Defined.

Lemma onGenerate_truncates_count_witness :
  exists recs,
    result (fst (@onGenerate Reference.platform
                   (withInput mSchemaText (CountNumber (Fin (5 # 2))) initial) 42%N))
      = Some recs /\
    Z.of_nat (List.length recs) = Qfloor (5 # 2).
Proof.
  apply (@onGenerate_truncates_count Reference.platform
           (withInput mSchemaText (CountNumber (Fin (5 # 2))) initial) 42%N
           [("m", Str "string")] (5 # 2)).
  - vm_compute. reflexivity.
  - reflexivity.
  - reflexivity.
  - split; vm_compute; discriminate.
Defined.

Lemma onGenerate_records_witness :
  exists recs,
    result (fst (@onGenerate Reference.platform
                   (withInput mSchemaText (CountNumber (ofInt 3)) initial) 42%N))
      = Some recs /\
    Z.of_nat (List.length recs) = 3 /\
    Forall (fun r => Object_keys r = Object_keys (Obj [("m", Str "string")])) recs.
Proof.
  apply (@onGenerate_records Reference.platform
           (withInput mSchemaText (CountNumber (ofInt 3)) initial) 42%N
           [("m", Str "string")] 3).
  - vm_compute. reflexivity.
  - reflexivity.
  - repeat constructor. simpl. tauto.
  - simpl. intros [H | []]. discriminate.
  - reflexivity.
  - lia.
Defined.

Lemma genValue_throws_on_non_string_witness :
  exists m,
    @genValue Reference.platform (Number (ofInt 1)) 42%N = (Throw (TypeError m), 42%N).
Proof.
  apply (@genValue_throws_on_non_string Reference.platform (Number (ofInt 1)) 42%N).
  reflexivity.
Defined.

Lemma onGenerate_rejects_non_string_tag_witness :
  exists m g',
    @generate Reference.platform
       (withInput numberSchemaText (CountNumber (ofInt 3)) initial) 42%N
      = (Throw (TypeError m), g') /\
    result (fst (@onGenerate Reference.platform
                   (withInput numberSchemaText (CountNumber (ofInt 3)) initial) 42%N))
      = None /\
    error (fst (@onGenerate Reference.platform
                  (withInput numberSchemaText (CountNumber (ofInt 3)) initial) 42%N))
      = m.
Proof.
  apply (@onGenerate_rejects_non_string_tag Reference.platform
           (withInput numberSchemaText (CountNumber (ofInt 3)) initial) 42%N
           [("a", Number (ofInt 1))]).
  - vm_compute. reflexivity.
  - reflexivity.
Defined.

Lemma openApiToSchema_reads_first_path_witness :
  openApiToSchema
    (Obj [("openapi", Str "3.0.0");
          ("info", Obj [("title", Str "Pets")]);
          ("paths", Obj [("/pets", petsItem); ("/users", usersItem)]);
          ("components", Obj [])])
  = openApiToSchema (Obj [("paths", Obj [("/pets", petsItem)])]).
Proof.
  apply (openApiToSchema_reads_first_path
           (Obj [("openapi", Str "3.0.0");
                 ("info", Obj [("title", Str "Pets")]);
                 ("paths", Obj [("/pets", petsItem); ("/users", usersItem)]);
                 ("components", Obj [])])
           "/pets" petsItem [("/users", usersItem)]).
  - reflexivity.
  - repeat constructor.
Defined.

Lemma convertProps_keeps_fields_witness :
  convertProps (Obj petsProperties)
  = Ok (Obj (map reducedField (ownProps petsProperties))).
Proof.
  apply (convertProps_keeps_fields petsProperties).
  - repeat constructor; simpl; intuition discriminate.
  - simpl. intuition discriminate.
  - repeat constructor.
Defined.

Lemma convertProps_null_property_witness :
  exists m, convertProps (Obj [("id", Null)]) = Throw (TypeError m).
Proof.
  apply (convertProps_null_property [("id", Null)]).
  apply Exists_cons_hd. reflexivity.
Defined.

Lemma upload_then_generate_witness :
  exists recs,
    result (fst (@onGenerate Reference.platform
                   (@onOpenApiUpload Reference.platform (Some petsFile) initial) 42%N))
      = Some recs /\
    error (fst (@onGenerate Reference.platform
                  (@onOpenApiUpload Reference.platform (Some petsFile) initial) 42%N))
      = "" /\
    1 <= Z.of_nat (List.length recs) <= 10000 /\
    Forall noNull recs.
Proof.
  apply (@upload_then_generate Reference.platform petsFile initial petsDoc
           (Obj [("id", Str "uuid"); ("age", Str "number")]) 42%N).
  - vm_compute. reflexivity.
  - vm_compute. reflexivity.
  - vm_compute. reflexivity.
Defined.

(** *** Records of a reduced schema *)

Lemma assignKey_NoDup (ks : list string) (k : string) :
  NoDup ks -> NoDup (assignKey ks k).
Proof.
  intros H. unfold assignKey.
  destruct (String.eqb k "__proto__"); [exact H |].
  destruct (existsb (fun k' => String.eqb k' k) ks) eqn:E; [exact H |].
  apply NoDup_app; [exact H | repeat constructor; intros [] |].
  intros x Hx [Hk | []]. subst x.
  assert (existsb (fun k' => String.eqb k' k) ks = true); [| congruence].
  apply existsb_exists. exists k. split; [exact Hx | apply String.eqb_refl].
Qed.

Lemma assignKey_no_proto (ks : list string) (k : string) :
  ~ In "__proto__" ks -> ~ In "__proto__" (assignKey ks k).
Proof.
  intros H. unfold assignKey.
  destruct (String.eqb_spec k "__proto__") as [_ | Hk]; [exact H |].
  destruct (existsb (fun k' => String.eqb k' k) ks); [exact H |].
  rewrite in_app_iff. intros [Hin | [Heq | []]]; [exact (H Hin) | exact (Hk Heq)].
Qed.

Lemma fillSchema_keys (entries r r' : list (string * Val)) :
  NoDup (keys r) -> ~ In "__proto__" (keys r) ->
  fillSchema entries r = Ok r' ->
  NoDup (keys r') /\ ~ In "__proto__" (keys r').
Proof.
  revert r. induction entries as [| [k v] rest IH]; simpl; intros r Hnd Hp H.
  - injection H as <-. split; assumption.
  - apply rbind_Ok in H as (t & _ & H).
    apply rbind_Ok in H as (f & _ & H).
    apply IH in H; [exact H | |]; rewrite keys_assign.
    + apply assignKey_NoDup, Hnd.
    + apply assignKey_no_proto, Hp.
Qed.

(** Every schema the reducer returns has distinct field names, none of
    them [__proto__]; so a record built from it has exactly the fields of
    the schema, in the order of [Object.keys], and never throws. *)
Theorem reducer_schema_records_keep_fields `{P : Platform} (doc schema : Val) (g : Rng) :
  openApiToSchema doc = Ok schema ->
  exists fields rec g',
    schema = Obj fields /\
    NoDup (keys fields) /\ ~ In "__proto__" (keys fields) /\
    buildRecord schema g = (Ok (Obj rec), g') /\
    Object_keys (Obj rec) = Object_keys schema.
Proof.
  intros H.
  destruct (openApiToSchema_tags _ _ H) as (fields & -> & Htags).
  assert (Hwf : NoDup (keys fields) /\ ~ In "__proto__" (keys fields)).
  { destruct (truthy (pathsNode doc)) eqn:Hp;
      [| rewrite (openApiToSchema_no_paths _ Hp) in H; discriminate].
    rewrite (openApiToSchema_steps _ Hp) in H.
    assert (Hconv : exists props, convertProps props = Ok (Obj fields)).
    { repeat match type of H with
             | (if ?b then _ else _) = _ => destruct b; try discriminate
             end; eauto. }
    destruct Hconv as (props & Hc). unfold convertProps in Hc.
    apply rbind_Ok in Hc as (entries & _ & Hc).
    apply rbind_Ok in Hc as (r & Hr & Hc). injection Hc as <-.
    apply (fillSchema_keys entries [] r); [apply NoDup_nil | intros [] | exact Hr]. }
  destruct Hwf as [Hnd Hp].
  destruct (buildRecord_flat fields g (reducerTag_flat _ Htags)) as (rec & g' & Hb & Hk).
  exists fields, rec, g'. repeat split; try assumption.
  apply Object_keys_record. rewrite Hk. apply recordKeys_schema; assumption.
Qed.

Lemma reducer_schema_records_keep_fields_witness :
  exists fields rec g',
    Obj [("id", Str "uuid"); ("age", Str "number")] = Obj fields /\
    NoDup (keys fields) /\ ~ In "__proto__" (keys fields) /\
    @buildRecord Reference.platform (Obj [("id", Str "uuid"); ("age", Str "number")]) 42%N
      = (Ok (Obj rec), g') /\
    Object_keys (Obj rec) = Object_keys (Obj [("id", Str "uuid"); ("age", Str "number")]).
Proof.
  apply (@reducer_schema_records_keep_fields Reference.platform petsDoc).
  vm_compute. reflexivity.
Defined.

(** *** Values synthesized for a reduced schema *)

Section Synthesis.
Context `{P : Platform}.

Lemma genValue_synthesized (tag : string) (g : Rng) :
  In tag reducerTags ->
  exists v g', genValue (Str tag) g = (Ok v, g') /\ Synthesized tag g v g'.
Proof.
  unfold reducerTags. simpl.
  intros [<- | [<- | [<- | [<- | [<- | []]]]]];
    unfold genValue; simpl; rewrite bind_draw; unfold ret;
    eexists; eexists; (split; [reflexivity | constructor]).
Qed.

Lemma Synthesized_not_null (tag : string) (g g' : Rng) (v : Val) :
  Synthesized tag g v g' -> v <> Null.
Proof. intros H. inversion H; discriminate. Qed.

Lemma Filled_keys (fields rec : list (string * Val)) (g g' : Rng) :
  Filled fields g rec g' -> keys rec = keys fields.
Proof.
  induction 1 as [| k tag rest g g1 g' v rec _ _ IH]; simpl;
    [reflexivity | f_equal; exact IH].
Qed.

Lemma Filled_not_null (fields rec : list (string * Val)) (g g' : Rng) :
  Filled fields g rec g' -> Forall (fun e => snd e <> Null) rec.
Proof.
  induction 1 as [| k tag rest g g1 g' v rec Hv _ IH]; constructor;
    [exact (Synthesized_not_null _ _ _ _ Hv) | exact IH].
Qed.

(** On entries that carry reducer tags under distinct names, none of them
    [__proto__] and none already in the record, the loop of [buildRecord]
    appends one synthesized value per entry, in order. *)
Lemma fillRecord_filled (entries : list (string * Val)) :
  Forall reducerTag entries ->
  forall (acc : list (string * Val)) (g : Rng),
    NoDup (keys acc ++ keys entries) ->
    ~ In "__proto__" (keys entries) ->
    exists rec g',
      fillRecord entries acc g = (Ok (acc ++ rec)%list, g') /\
      Filled entries g rec g'.
Proof.
  induction 1 as [| [k t] rest (tag & Ht & Hin) _ IH]; intros acc g Hnd Hp.
  - exists [], g. simpl. rewrite app_nil_r. split; [reflexivity | constructor].
  - simpl in Ht. subst t.
    destruct (genValue_synthesized tag g Hin) as (v & g1 & Hv & Hsyn).
    simpl. rewrite (bind_Ok _ _ _ _ _ Hv).
    assert (Hfresh : ~ In k (keys acc)).
    { intros Hk. apply NoDup_remove_2 in Hnd. apply Hnd.
      apply in_or_app. left. exact Hk. }
    unfold assign.
    destruct (String.eqb_spec k "__proto__") as [Hk | _];
      [exfalso; apply Hp; left; exact Hk |].
    rewrite (put_fresh _ _ _ Hfresh).
    destruct (IH (acc ++ [(k, v)])%list g1) as (rec & g' & Hr & Hf).
    + unfold keys in *. rewrite map_app, <- app_assoc. exact Hnd.
    + intros Hk. apply Hp. right. exact Hk.
    + exists ((k, v) :: rec), g'. split.
      * rewrite Hr, <- app_assoc. reflexivity.
      * econstructor; eassumption.
Qed.

Lemma openApiToSchema_fields_distinct (doc : Val) (fields : list (string * Val)) :
  openApiToSchema doc = Ok (Obj fields) ->
  NoDup (keys fields) /\ ~ In "__proto__" (keys fields).
Proof.
  intros H.
  destruct (truthy (pathsNode doc)) eqn:Hp;
    [| rewrite (openApiToSchema_no_paths _ Hp) in H; discriminate].
  rewrite (openApiToSchema_steps _ Hp) in H.
  assert (Hconv : exists props, convertProps props = Ok (Obj fields)).
  { repeat match type of H with
           | (if ?b then _ else _) = _ => destruct b; try discriminate
           end; eauto. }
  destruct Hconv as (props & Hc). unfold convertProps in Hc.
  apply rbind_Ok in Hc as (entries & _ & Hc).
  apply rbind_Ok in Hc as (r & Hr & Hc). injection Hc as <-.
  apply (fillSchema_keys entries [] r); [apply NoDup_nil | intros [] | exact Hr].
Qed.

End Synthesis.

(** C10. Every tag the reducer puts in a schema is one of "uuid",
    "email", "date:YYYY-MM-DD", "string" and "number".  So for a schema
    the reducer returned, on every field [genValue] returns the value the
    random source synthesizes for the tag of the field (the identifier,
    the name, the lower-cased address, the integer or the formatted day),
    never the null marker; and a record built from the schema has exactly
    the fields of the schema, in the order of [Object.keys], each with
    the value synthesized for its tag, the draws following one another,
    and no value null. *)
Theorem reducer_schema_synthesizes `{P : Platform} (doc schema : Val) :
  openApiToSchema doc = Ok schema ->
  exists fields,
    schema = Obj fields /\
    Forall reducerTag fields /\
    (forall k tag g, In (k, tag) fields ->
       exists s v g',
         tag = Str s /\ In s reducerTags /\
         genValue tag g = (Ok v, g') /\ Synthesized s g v g' /\ v <> Null) /\
    (forall g, exists rec g',
       buildRecord schema g = (Ok (Obj rec), g') /\
       Filled (ownProps fields) g rec g' /\
       Object_keys (Obj rec) = Object_keys schema /\
       Forall (fun e => snd e <> Null) rec).
Proof.
  intros H. destruct (openApiToSchema_tags _ _ H) as (fields & -> & Hf).
  destruct (openApiToSchema_fields_distinct _ _ H) as [Hnd Hp].
  exists fields. split; [reflexivity |]. split; [exact Hf |]. split.
  - intros k tag g Hin.
    pose proof Hf as Hall. rewrite Forall_forall in Hall.
    destruct (Hall _ Hin) as (s & Hs & Htag). simpl in Hs. subst tag.
    destruct (genValue_synthesized s g Htag) as (v & g' & Hv & Hsyn).
    exists s, v, g'. repeat split; try assumption.
    exact (Synthesized_not_null _ _ _ _ Hsyn).
  - intros g.
    assert (Hown : Forall reducerTag (ownProps fields)).
    { rewrite Forall_forall in Hf |- *. intros e He. apply Hf, In_ownProps, He. }
    pose proof (Permutation_map fst (ownProps_Permutation fields)) as Hperm.
    destruct (fillRecord_filled _ Hown [] g) as (rec & g' & Hr & Hfilled).
    + simpl. apply (Permutation_NoDup (Permutation_sym Hperm)), Hnd.
    + intros Hin. apply Hp. apply (Permutation_in _ Hperm), Hin.
    + exists rec, g'. split; [| split; [exact Hfilled | split]].
      * unfold buildRecord, lift. simpl Object_entries. unfold bind at 1.
        rewrite (bind_Ok _ _ _ _ _ Hr). reflexivity.
      * apply Object_keys_record. exact (Filled_keys _ _ _ _ Hfilled).
      * exact (Filled_not_null _ _ _ _ Hfilled).
Qed.

Lemma reducer_schema_synthesizes_witness :
  exists fields,
    Obj [("id", Str "uuid"); ("age", Str "number")] = Obj fields /\
    Forall reducerTag fields /\
    (forall k tag g, In (k, tag) fields ->
       exists s v g',
         tag = Str s /\ In s reducerTags /\
         @genValue Reference.platform tag g = (Ok v, g') /\
         @Synthesized Reference.platform s g v g' /\ v <> Null) /\
    (forall g, exists rec g',
       @buildRecord Reference.platform (Obj [("id", Str "uuid"); ("age", Str "number")]) g
         = (Ok (Obj rec), g') /\
       @Filled Reference.platform (ownProps fields) g rec g' /\
       Object_keys (Obj rec)
         = Object_keys (Obj [("id", Str "uuid"); ("age", Str "number")]) /\
       Forall (fun e => snd e <> Null) rec).
Proof.
  apply (@reducer_schema_synthesizes Reference.platform petsDoc).
  vm_compute. reflexivity.
Defined.

(** The same, computed: on the reference platform the record built from
    the schema of the example document holds an identifier under id and
    an integer under age. *)
Example reducer_schema_reference_run :
  fst (@buildRecord Reference.platform
         (Obj [("id", Str "uuid"); ("age", Str "number")]) 42%N)
  = Ok (Obj [("id", Str (fst (Reference.uuid 42%N)));
             ("age", Number (ofInt (fst (Reference.int 0 9999
                                           (snd (Reference.uuid 42%N))))))]).
Proof. vm_compute. reflexivity. Qed.
